(** * NotebookEditor: the pane controller of the notebook editor

    A shallow embedding of
    [src/vs/workbench/contrib/notebook/browser/notebookEditor.ts].

    The class is stateful and asynchronous.  Its fields become a record,
    its methods become computations in a small state-and-exception monad,
    and [setInput], an [async] method, is cut at each of its three
    [await]s into four segments that a host schedule resumes one by one.
    Every call the class makes on a collaborator (the borrowed widget, the
    widget service, the memento, the notification service, the input) is
    appended to a log, so that "calls setModel", "writes the store" and
    "before" are statements about that log. *)

From stdpp Require Import gmap strings list.
From Stdlib Require Import ZArith.

Open Scope Z_scope.
Open Scope string_scope.
Open Scope list_scope.

(** ** Data *)

(** [IEditorGroup]: only its [id] is read. *)
Record IEditorGroup := { group_id : Z }.

(** [NotebookEditorInput].  [input_ref] stands for the identity of the
    JavaScript object: [===] on inputs is equality of these records. *)
Record NotebookEditorInput :=
  { input_ref : nat;
    resource : string;   (* the URI, as its [toString()] *)
    viewType : string }.

(** An [EditorInput] is a [NotebookEditorInput] or an input of some other
    class; [instanceof NotebookEditorInput] is [as_notebook]. *)
Inductive EditorInput :=
| NotebookInput (n : NotebookEditorInput)
| OtherInput (ref : nat) (res : string).

Definition as_notebook (i : EditorInput) : option NotebookEditorInput :=
  match i with
  | NotebookInput n => Some n
  | OtherInput _ _ => None
  end.

(** [x instanceof NotebookEditorInput] for a field that may be undefined:
    the input when it is one, nothing otherwise. *)
Definition instanceof_NotebookEditorInput (x : option EditorInput)
    : option NotebookEditorInput :=
  match x with
  | Some i => as_notebook i
  | None => None
  end.

(** [IEditorCloseEvent]: only [editor] is read. *)
Record IEditorCloseEvent := { editor : EditorInput }.

(** [DOM.Dimension]; widths and heights are whole pixels. *)
Record Dimension := { width : Z; height : Z }.

(** [EditorOptions] and [INotebookEditorViewState] are opaque to the class:
    it only passes them on. *)
Record EditorOptions := { options_blob : string }.
Record INotebookEditorViewState := { state_blob : string }.

(** [NotebookViewModel], as far as the class reads it. *)
Record NotebookViewModel := { uri : string; handle : Z }.

(** What the class can observe of a [NotebookEditorWidget]: its id, its
    current view model and the view state it reports. *)
Record NotebookEditorWidget :=
  { getId : string;
    viewModel : option NotebookViewModel;
    getEditorViewState : INotebookEditorViewState }.

(** [IBorrowValue<T>]: [{ value: T | undefined }]. *)
Record IBorrowValue (T : Type) := { value : option T }.
Arguments value {T} _.
Arguments Build_IBorrowValue {T} _.

(** The notebook document and the model [input.resolve] yields. *)
Record NotebookTextModel := { notebook_uri : string; notebook_handle : Z }.
Record NotebookEditorModel := { notebook : NotebookTextModel }.

(** A [CancellationToken] is named by a number; whether it has been
    signalled is a fact of the host (see [Host]). *)
Definition CancellationToken := nat.

#[global] Instance IEditorGroup_eq_dec : EqDecision IEditorGroup.
Proof. solve_decision. Defined.
#[global] Instance NotebookEditorInput_eq_dec : EqDecision NotebookEditorInput.
Proof. solve_decision. Defined.
#[global] Instance EditorInput_eq_dec : EqDecision EditorInput.
Proof. solve_decision. Defined.
#[global] Instance Dimension_eq_dec : EqDecision Dimension.
Proof. solve_decision. Defined.
#[global] Instance EditorOptions_eq_dec : EqDecision EditorOptions.
Proof. solve_decision. Defined.
#[global] Instance INotebookEditorViewState_eq_dec :
  EqDecision INotebookEditorViewState.
Proof. solve_decision. Defined.
#[global] Instance NotebookTextModel_eq_dec : EqDecision NotebookTextModel.
Proof. solve_decision. Defined.

(** ** Calls on collaborators *)

(** The choice offered by the prompt of [setInput]; its [run] callback
    opens [resource] with the captured [options] and [override: false]. *)
Record PromptChoice :=
  { label : string;
    reopen_resource : string;
    reopen_options : option EditorOptions }.

#[global] Instance PromptChoice_eq_dec : EqDecision PromptChoice.
Proof. solve_decision. Defined.

Inductive Call :=
| WidgetGetEditorViewState (id : string)
| WidgetOnWillHide (id : string)
| WidgetLayout (id : string) (d : Dimension)
| WidgetSetModel (id : string) (doc : NotebookTextModel)
    (viewState : option INotebookEditorViewState)
    (options : option EditorOptions)
| WidgetOnDidFocus (id : string)
| WidgetGetDomNode (id : string)
| ServiceRetrieveWidget (group : option IEditorGroup)
    (input : NotebookEditorInput)
| InputResolve (input : NotebookEditorInput) (id : string)
| MementoSave (group : Z) (res : string) (state : INotebookEditorViewState)
| MementoLoad (group : Z) (res : string)
| NotificationPrompt (message : string) (choices : list PromptChoice)
| CreateEditorDropTarget (id : string).

#[global] Instance Call_eq_dec : EqDecision Call.
Proof. solve_decision. Defined.

(** What [_widgetDisposableStore] holds. *)
Inductive Subscription :=
| FocusForward (id : string)
| DropTarget (id : string).

(** ** The object *)

Record NotebookEditor :=
  { _input : option EditorInput;
    _group : option IEditorGroup;
    _widget : IBorrowValue NotebookEditorWidget;
    dimension : option Dimension;
    mid_width : bool;      (* class 'mid-width' of [_rootElement] *)
    narrow_width : bool;   (* class 'narrow-width' of [_rootElement] *)
    editorMemento : gmap (Z * string) INotebookEditorViewState;
    _widgetDisposableStore : list Subscription;
    groupListener : option IEditorGroup;
    editorGroupService_isEditorPart : bool;
    calls : list Call }.

(** The object as the constructor and the field initialisers leave it. *)
Definition new_NotebookEditor (isEditorPart : bool) : NotebookEditor :=
  {| _input := None;
     _group := None;
     _widget := {| value := None |};
     dimension := None;
     mid_width := false;
     narrow_width := false;
     editorMemento := ∅;
     _widgetDisposableStore := [];
     groupListener := None;
     editorGroupService_isEditorPart := isEditorPart;
     calls := [] |}.

Definition set_input (v : option EditorInput) (e : NotebookEditor) :=
  {| _input := v; _group := _group e; _widget := _widget e;
     dimension := dimension e; mid_width := mid_width e;
     narrow_width := narrow_width e; editorMemento := editorMemento e;
     _widgetDisposableStore := _widgetDisposableStore e;
     groupListener := groupListener e;
     editorGroupService_isEditorPart := editorGroupService_isEditorPart e;
     calls := calls e |}.

Definition set_group (v : option IEditorGroup) (e : NotebookEditor) :=
  {| _input := _input e; _group := v; _widget := _widget e;
     dimension := dimension e; mid_width := mid_width e;
     narrow_width := narrow_width e; editorMemento := editorMemento e;
     _widgetDisposableStore := _widgetDisposableStore e;
     groupListener := groupListener e;
     editorGroupService_isEditorPart := editorGroupService_isEditorPart e;
     calls := calls e |}.

Definition set_widget (v : IBorrowValue NotebookEditorWidget)
    (e : NotebookEditor) :=
  {| _input := _input e; _group := _group e; _widget := v;
     dimension := dimension e; mid_width := mid_width e;
     narrow_width := narrow_width e; editorMemento := editorMemento e;
     _widgetDisposableStore := _widgetDisposableStore e;
     groupListener := groupListener e;
     editorGroupService_isEditorPart := editorGroupService_isEditorPart e;
     calls := calls e |}.

Definition set_dimension (d : Dimension) (mid narrow : bool)
    (e : NotebookEditor) :=
  {| _input := _input e; _group := _group e; _widget := _widget e;
     dimension := Some d; mid_width := mid;
     narrow_width := narrow; editorMemento := editorMemento e;
     _widgetDisposableStore := _widgetDisposableStore e;
     groupListener := groupListener e;
     editorGroupService_isEditorPart := editorGroupService_isEditorPart e;
     calls := calls e |}.

Definition set_memento (m : gmap (Z * string) INotebookEditorViewState)
    (e : NotebookEditor) :=
  {| _input := _input e; _group := _group e; _widget := _widget e;
     dimension := dimension e; mid_width := mid_width e;
     narrow_width := narrow_width e; editorMemento := m;
     _widgetDisposableStore := _widgetDisposableStore e;
     groupListener := groupListener e;
     editorGroupService_isEditorPart := editorGroupService_isEditorPart e;
     calls := calls e |}.

Definition set_disposables (l : list Subscription) (e : NotebookEditor) :=
  {| _input := _input e; _group := _group e; _widget := _widget e;
     dimension := dimension e; mid_width := mid_width e;
     narrow_width := narrow_width e; editorMemento := editorMemento e;
     _widgetDisposableStore := l;
     groupListener := groupListener e;
     editorGroupService_isEditorPart := editorGroupService_isEditorPart e;
     calls := calls e |}.

Definition set_groupListener (v : option IEditorGroup) (e : NotebookEditor) :=
  {| _input := _input e; _group := _group e; _widget := _widget e;
     dimension := dimension e; mid_width := mid_width e;
     narrow_width := narrow_width e; editorMemento := editorMemento e;
     _widgetDisposableStore := _widgetDisposableStore e;
     groupListener := v;
     editorGroupService_isEditorPart := editorGroupService_isEditorPart e;
     calls := calls e |}.

Definition log_call (c : Call) (e : NotebookEditor) :=
  {| _input := _input e; _group := _group e; _widget := _widget e;
     dimension := dimension e; mid_width := mid_width e;
     narrow_width := narrow_width e; editorMemento := editorMemento e;
     _widgetDisposableStore := _widgetDisposableStore e;
     groupListener := groupListener e;
     editorGroupService_isEditorPart := editorGroupService_isEditorPart e;
     calls := calls e ++ [c] |}.

(** ** The monad of method bodies *)

(** A method body either completes normally or throws; the mutations made
    before a throw stay. *)
Inductive Completion (A : Type) :=
| Normal (a : A)
| Throw (error : string).
Arguments Normal {A} _.
Arguments Throw {A} _.

Definition M (A : Type) : Type := NotebookEditor -> Completion A * NotebookEditor.

#[global] Instance M_ret : MRet M := fun A a e => (Normal a, e).
#[global] Instance M_bind : MBind M := fun A B f m e =>
  match m e with
  | (Normal a, e') => f a e'
  | (Throw err, e') => (Throw err, e')
  end.

#[global] Instance M_fmap : FMap M := fun A B f m e =>
  match m e with
  | (Normal a, e') => (Normal (f a), e')
  | (Throw err, e') => (Throw err, e')
  end.

Definition get : M NotebookEditor := fun e => (Normal e, e).
Definition modify (f : NotebookEditor -> NotebookEditor) : M unit :=
  fun e => (Normal tt, f e).
Definition call (c : Call) : M unit := modify (log_call c).
Definition throw {A} (err : string) : M A := fun e => (Throw err, e).

(** [this._widget.value!.m(...)]: the non-null assertion is erased by the
    compiler, so a method call on an [undefined] value throws. *)
Definition TypeError : string := "TypeError: Cannot read property of undefined".

Definition widget_value : M NotebookEditorWidget :=
  this ← get;
  match value (_widget this) with
  | Some w => mret w
  | None => throw TypeError
  end.

(** The state a body ends in, and its completion. *)
Definition exec {A} (m : M A) (e : NotebookEditor) : NotebookEditor := snd (m e).
Definition completion {A} (m : M A) (e : NotebookEditor) : Completion A := fst (m e).

(** ** Collaborators that are not part of this file *)

(** Modelled from the spec: [IEditorMemento.saveEditorState] (the
    [EditorMemento] of the base editor is not among the sources).  "Keyed
    by (editorGroupId, documentURI)", "writes are last-write-wins per
    key". *)
Definition saveEditorState (group : IEditorGroup) (res : string)
    (state : INotebookEditorViewState) : M unit :=
  call (MementoSave (group_id group) res state);;
  modify (fun e => set_memento (<[(group_id group, res) := state]> (editorMemento e)) e).

(** Modelled from the spec: [IEditorMemento.loadEditorState], the read side
    of the same keyed store: ".load(group, uri) → state?". *)
Definition loadEditorState (group : IEditorGroup) (res : string)
    : M (option INotebookEditorViewState) :=
  call (MementoLoad (group_id group) res);;
  this ← get;
  mret (editorMemento this !! (group_id group, res)).

(** Modelled from the spec: [BaseEditor.setInput] ([BaseEditor] is not
    among the sources).  "currentInput: optional reference to the active
    document input ... Set by host": the base method records the input. *)
Definition super_setInput (input : NotebookEditorInput)
    (options : option EditorOptions) (token : CancellationToken) : M unit :=
  modify (set_input (Some (NotebookInput input))).

(** Modelled from the spec: [BaseEditor.clearInput]; "transitions to
    Empty", the state with no input. *)
Definition super_clearInput : M unit := modify (set_input None).

(** Modelled from the spec: [BaseEditor.setEditorVisible]; the base class
    keeps the group the pane is shown in ("the controller has no editor
    group assigned" is [_group = None]). *)
Definition super_setEditorVisible (visible : bool)
    (group : option IEditorGroup) : M unit :=
  modify (set_group group).

(** Modelled from the spec: [BaseEditor.onWillHide] and
    [BaseEditor.saveState]; the spec gives them no effect on the
    controller's data. *)
Definition super_onWillHide : M unit := mret tt.
Definition super_saveState : M unit := mret tt.

(** ** Methods *)

(** [this.input] and [this.group] are getters of the base class on
    [_input] and [_group]. *)

(** [saveEditorViewState], lines 194-199. *)
Definition saveEditorViewState (input : NotebookEditorInput) : M unit :=
  this ← get;
  match _group this, value (_widget this) with
  | Some group, Some w =>
      call (WidgetGetEditorViewState (getId w));;
      let state := getEditorViewState w in
      saveEditorState group (resource input) state
  | _, _ => mret tt
  end.

(** [loadTextEditorViewState], lines 201-207. *)
Definition loadTextEditorViewState (input : NotebookEditorInput)
    : M (option INotebookEditorViewState) :=
  this ← get;
  match _group this with
  | Some group => loadEditorState group (resource input)
  | None => mret None
  end.

(** [onWillHide], lines 100-109. *)
Definition onWillHide : M unit :=
  this ← get;
  match instanceof_NotebookEditorInput (_input this) with
  | Some input => saveEditorViewState input
  | None => mret tt
  end;;
  this ← get;
  match _input this, value (_widget this) with
  | Some _, Some w => call (WidgetOnWillHide (getId w))
  | _, _ => mret tt
  end;;
  super_onWillHide.

(** [setEditorVisible], lines 111-114.  The listener registered on the
    group is represented by the group it listens to. *)
Definition setEditorVisible (visible : bool) (group : option IEditorGroup)
    : M unit :=
  super_setEditorVisible visible group;;
  modify (set_groupListener group).

(** [onWillCloseEditorInGroup], lines 116-125. *)
Definition onWillCloseEditorInGroup (e : IEditorCloseEvent) : M unit :=
  match as_notebook (editor e) with
  | None => mret tt
  | Some ed =>
      this ← get;
      if decide (Some (NotebookInput ed) = _input this)
      then saveEditorViewState ed
      else mret tt
  end.

(** [clearInput], lines 187-192. *)
Definition clearInput : M unit :=
  this ← get;
  match value (_widget this) with
  | Some w => call (WidgetOnWillHide (getId w))
  | None => mret tt
  end;;
  super_clearInput.

(** [layout], lines 209-229. *)
Definition layout (d : Dimension) : M unit :=
  modify (set_dimension d
            (bool_decide (width d < 1000) && bool_decide (600 <= width d))
            (bool_decide (width d < 600)));;
  this ← get;
  match value (_widget this), instanceof_NotebookEditorInput (_input this) with
  | Some w, Some input =>
      match viewModel w with
      | Some vm =>
          (* [resource.toString() !== viewModel.uri.toString() && viewModel] *)
          if decide (resource input ≠ uri vm)
          then mret tt   (* input and widget mismatch *)
          else
            match dimension this with
            | Some dim => call (WidgetLayout (getId w) dim)
            | None => mret tt
            end
      | None =>
          (* [viewModel?.uri.toString()] is undefined and differs from the
             resource, but the second conjunct, [viewModel], is falsy *)
          match dimension this with
          | Some dim => call (WidgetLayout (getId w) dim)
          | None => mret tt
          end
      end
  | _, _ => mret tt
  end.

(** [saveState], lines 231-237. *)
Definition saveState : M unit :=
  this ← get;
  match instanceof_NotebookEditorInput (_input this) with
  | Some input => saveEditorViewState input
  | None => mret tt
  end;;
  super_saveState.

(** ** [setInput], lines 132-185

    An [async] method runs until its first [await], and each later segment
    runs when the awaited promise has settled.  A [Frame] is a suspended
    call: the [await] it stands at and the locals it captured. *)
Inductive Frame :=
| AwaitSuperSetInput (group : option IEditorGroup)
    (input : NotebookEditorInput) (options : option EditorOptions)
    (token : CancellationToken)                         (* line 141 *)
| AwaitResolve (input : NotebookEditorInput)
    (options : option EditorOptions)
    (token : CancellationToken)                         (* line 157 *)
| AwaitSetModel (input : NotebookEditorInput)
    (options : option EditorOptions)
    (token : CancellationToken).                        (* line 177 *)

(** Lines 134-141: up to [await super.setInput(...)].  [this.group!] is
    only read here; nothing checks it. *)
Definition setInput_begin (input : NotebookEditorInput)
    (options : option EditorOptions) (token : CancellationToken) : M Frame :=
  this ← get;
  let group := _group this in
  match instanceof_NotebookEditorInput (_input this) with
  | Some previous => saveEditorViewState previous
  | None => mret tt
  end;;
  super_setInput input options token;;
  mret (AwaitSuperSetInput group input options token).

(** Lines 143-157: up to [await input.resolve(...)].  [borrowed] is what
    [notebookWidgetService.retrieveWidget] answers, which the class
    cannot choose. *)
Definition setInput_borrow (group : option IEditorGroup)
    (input : NotebookEditorInput) (options : option EditorOptions)
    (token : CancellationToken)
    (borrowed : IBorrowValue NotebookEditorWidget) : M Frame :=
  modify (set_disposables []);;
  this ← get;
  match value (_widget this) with
  | Some w => call (WidgetOnWillHide (getId w))
  | None => mret tt
  end;;
  call (ServiceRetrieveWidget group input);;
  modify (set_widget borrowed);;
  this ← get;
  match dimension this with
  | Some d => w ← widget_value; call (WidgetLayout (getId w) d)
  | None => mret tt
  end;;
  w ← widget_value;
  call (InputResolve input (getId w));;
  mret (AwaitResolve input options token).

Definition fail_noEditor : string :=
  "Cannot open resource with notebook editor type '${input.viewType}', please check if you have the right extension installed or enabled.".
Definition fail_reOpen : string :=
  "Reopen file with VS Code standard text editor".

(** Lines 159-177: from the answer of [input.resolve] up to
    [await this._widget.value!.setModel(...)].  [None] is the completed
    call (the [return] of line 172). *)
Definition setInput_resolved (input : NotebookEditorInput)
    (options : option EditorOptions) (token : CancellationToken)
    (model : option NotebookEditorModel) : M (option Frame) :=
  match model with
  | None =>
      call (NotificationPrompt fail_noEditor
              [ {| label := fail_reOpen;
                   reopen_resource := resource input;
                   reopen_options := options |} ]);;
      mret None
  | Some model =>
      viewState ← loadTextEditorViewState input;
      w ← widget_value;
      call (WidgetSetModel (getId w) (notebook model) viewState options);;
      mret (Some (AwaitSetModel input options token))
  end.

(** Lines 178-185: after [setModel] has settled. *)
Definition setInput_finish (input : NotebookEditorInput)
    (options : option EditorOptions) (token : CancellationToken) : M unit :=
  w ← widget_value;
  call (WidgetOnDidFocus (getId w));;
  modify (fun e => set_disposables
                     (_widgetDisposableStore e ++ [FocusForward (getId w)]) e);;
  this ← get;
  if editorGroupService_isEditorPart this
  then
    w ← widget_value;
    call (WidgetGetDomNode (getId w));;
    call (CreateEditorDropTarget (getId w));;
    modify (fun e => set_disposables
                       (_widgetDisposableStore e ++ [DropTarget (getId w)]) e)
  else mret tt.

(** The part of [setInput] that runs before document resolution is
    awaited, when nothing else is scheduled at the first [await]. *)
Definition setInput_upto_resolve (input : NotebookEditorInput)
    (options : option EditorOptions) (token : CancellationToken)
    (borrowed : IBorrowValue NotebookEditorWidget) : M Frame :=
  f ← setInput_begin input options token;
  match f with
  | AwaitSuperSetInput group input options token =>
      setInput_borrow group input options token borrowed
  | _ => mret f
  end.

(** ** The host: a schedule of calls and resumptions *)

(** What settles an [await]: the borrow answered by the widget service
    (used by the segment after the first [await]), the answer of
    [input.resolve], or the end of [setModel]. *)
Inductive Answer :=
| Borrowed (b : IBorrowValue NotebookEditorWidget)
| Resolved (model : option NotebookEditorModel)
| ModelSet.

Inductive HostOp :=
| CallSetInput (input : NotebookEditorInput)
    (options : option EditorOptions) (token : CancellationToken)
| CallClearInput
| CallOnWillHide
| CallSetEditorVisible (visible : bool) (group : option IEditorGroup)
| CallCloseEditor (e : IEditorCloseEvent)
| CallLayout (d : Dimension)
| CallSaveState
| Resume (k : nat) (a : Answer)      (* resume the k-th suspended call *)
| CancelToken (token : CancellationToken)
| WidgetChanged (b : IBorrowValue NotebookEditorWidget).
                                     (* the borrowed widget changed, or
                                        the borrow was taken away *)

Record Host :=
  { pane : NotebookEditor;
    pending : list Frame;
    cancelled : gset nat;
    rejected : list string }.

Definition with_pane (p : NotebookEditor) (h : Host) : Host :=
  {| pane := p; pending := pending h; cancelled := cancelled h;
     rejected := rejected h |}.

(** Run a method body that suspends at frame [f] (or completes, [None]). *)
Definition settle (r : Completion (option Frame) * NotebookEditor)
    (rest : list Frame) (h : Host) : Host :=
  match r with
  | (Normal (Some f), p) =>
      {| pane := p; pending := rest ++ [f]; cancelled := cancelled h;
         rejected := rejected h |}
  | (Normal None, p) =>
      {| pane := p; pending := rest; cancelled := cancelled h;
         rejected := rejected h |}
  | (Throw err, p) =>
      {| pane := p; pending := rest; cancelled := cancelled h;
         rejected := rejected h ++ [err] |}
  end.

Definition resume_frame (f : Frame) (a : Answer)
    : option (M (option Frame)) :=
  match f, a with
  | AwaitSuperSetInput group input options token, Borrowed b =>
      Some (Some <$> setInput_borrow group input options token b)
  | AwaitResolve input options token, Resolved model =>
      Some (setInput_resolved input options token model)
  | AwaitSetModel input options token, ModelSet =>
      Some (setInput_finish input options token;; mret None)
  | _, _ => None
  end.

Definition step (op : HostOp) (h : Host) : Host :=
  match op with
  | CallSetInput input options token =>
      settle ((Some <$> setInput_begin input options token) (pane h))
        (pending h) h
  | CallClearInput => settle ((clearInput;; mret None) (pane h)) (pending h) h
  | CallOnWillHide => settle ((onWillHide;; mret None) (pane h)) (pending h) h
  | CallSetEditorVisible visible group =>
      settle ((setEditorVisible visible group;; mret None) (pane h))
        (pending h) h
  | CallCloseEditor e =>
      settle ((onWillCloseEditorInGroup e;; mret None) (pane h)) (pending h) h
  | CallLayout d => settle ((layout d;; mret None) (pane h)) (pending h) h
  | CallSaveState => settle ((saveState;; mret None) (pane h)) (pending h) h
  | Resume k a =>
      match pending h !! k with
      | Some f =>
          match resume_frame f a with
          | Some body => settle (body (pane h)) (delete k (pending h)) h
          | None => h     (* not an answer to what [f] awaits *)
          end
      | None => h
      end
  | CancelToken token =>
      {| pane := pane h; pending := pending h;
         cancelled := {[token]} ∪ cancelled h; rejected := rejected h |}
  | WidgetChanged b => with_pane (set_widget b (pane h)) h
  end.

Definition run (ops : list HostOp) (h : Host) : Host :=
  foldl (fun h op => step op h) h ops.

Definition new_Host (isEditorPart : bool) : Host :=
  {| pane := new_NotebookEditor isEditorPart; pending := [];
     cancelled := ∅; rejected := [] |}.

(** * Properties *)

(** Unfold method bodies down to the state they compute. *)
Ltac unfold_M :=
  unfold exec, completion, widget_value, call in *;
  unfold mbind, M_bind, fmap, M_fmap, mret, M_ret, modify, get, throw in *.

Ltac run_body := unfold_M; simpl in *.

(** Reduce, using the equations in context about fields that are read
    again. *)
Ltac reduce_with_eqs :=
  repeat (simpl;
          match goal with
          | H : ?x = Some _ |- context [match ?x with _ => _ end] => rewrite H
          | H : ?x = None |- context [match ?x with _ => _ end] => rewrite H
          end);
  simpl.

(** The calls a body adds to the log of [s]. *)
Definition new_calls {A} (m : M A) (s : NotebookEditor) : list Call :=
  drop (length (calls s)) (calls (exec m s)).

(** A body writes the store when it calls the memento's save. *)
Definition is_save (c : Call) : bool :=
  match c with MementoSave _ _ _ => true | _ => false end.

Definition is_save_at (g : Z) (r : string) (c : Call) : bool :=
  match c with
  | MementoSave g' r' _ => bool_decide (g' = g) && bool_decide (r' = r)
  | _ => false
  end.

Definition is_setModel (c : Call) : bool :=
  match c with WidgetSetModel _ _ _ _ => true | _ => false end.

Definition is_widget_call (c : Call) : bool :=
  match c with
  | WidgetGetEditorViewState _ | WidgetOnWillHide _ | WidgetLayout _ _
  | WidgetSetModel _ _ _ _ | WidgetOnDidFocus _ | WidgetGetDomNode _ => true
  | _ => false
  end.

Lemma drop_length_app {A} (l k : list A) : drop (length l) (l ++ k) = k.
Proof. by rewrite drop_app_length. Qed.

Lemma drop_length_self {A} (l : list A) : drop (length l) l = [].
Proof. by rewrite drop_all. Qed.

(** What the save helper does, in every state: with a group and a borrowed
    widget it asks the widget for its state and stores it under the group
    and the resource; otherwise nothing. *)
Definition saved (input : NotebookEditorInput) (s : NotebookEditor)
    : NotebookEditor :=
  match _group s, value (_widget s) with
  | Some g, Some w =>
      set_memento
        (<[(group_id g, resource input) := getEditorViewState w]>
           (editorMemento s))
        (log_call (MementoSave (group_id g) (resource input)
                     (getEditorViewState w))
           (log_call (WidgetGetEditorViewState (getId w)) s))
  | _, _ => s
  end.

Lemma saveEditorViewState_saved input s :
  saveEditorViewState input s = (Normal tt, saved input s).
Proof.
  unfold saveEditorViewState, saved, saveEditorState. run_body.
  destruct (_group s), (value (_widget s)); reflexivity.
Qed.

Lemma saved_guard input s :
  _group s = None \/ value (_widget s) = None -> saved input s = s.
Proof.
  unfold saved. intros [-> | ->]; [done|]. by destruct (_group s).
Qed.

Lemma saved_fields input s :
  _input (saved input s) = _input s /\
  _group (saved input s) = _group s /\
  _widget (saved input s) = _widget s /\
  dimension (saved input s) = dimension s /\
  _widgetDisposableStore (saved input s) = _widgetDisposableStore s.
Proof.
  unfold saved.
  destruct (_group s) eqn:?, (value (_widget s)) eqn:?; done.
Qed.

Lemma saved_idem input s :
  editorMemento (saved input (saved input s)) = editorMemento (saved input s).
Proof.
  unfold saved.
  destruct (_group s) as [g|] eqn:Hg, (value (_widget s)) as [w|] eqn:Hw;
    simpl; rewrite ?Hg, ?Hw; simpl; try done.
  apply insert_insert_eq.
Qed.

Lemma saveState_saved s :
  exec saveState s =
  match instanceof_NotebookEditorInput (_input s) with
  | Some input => saved input s
  | None => s
  end.
Proof.
  unfold saveState, super_saveState. run_body.
  destruct (instanceof_NotebookEditorInput (_input s)); [|done].
  by rewrite saveEditorViewState_saved.
Qed.

Lemma onWillCloseEditorInGroup_saved e s :
  exec (onWillCloseEditorInGroup e) s =
  match as_notebook (editor e) with
  | Some ed =>
      if decide (Some (NotebookInput ed) = _input s) then saved ed s else s
  | None => s
  end.
Proof.
  unfold onWillCloseEditorInGroup. run_body.
  destruct (as_notebook (editor e)); [|done].
  case_decide; [|done]. by rewrite saveEditorViewState_saved.
Qed.

Lemma onWillHide_saved s :
  exec onWillHide s =
  let s1 := match instanceof_NotebookEditorInput (_input s) with
            | Some input => saved input s
            | None => s
            end in
  match _input s, value (_widget s) with
  | Some _, Some w => log_call (WidgetOnWillHide (getId w)) s1
  | _, _ => s1
  end.
Proof.
  unfold onWillHide, super_onWillHide. run_body.
  destruct (_input s) as [i|] eqn:Hi; simpl; [|by rewrite Hi].
  destruct (as_notebook i) as [n|] eqn:Hn.
  - rewrite saveEditorViewState_saved.
    destruct (saved_fields n s) as (-> & _ & -> & _). rewrite Hi.
    by destruct (value (_widget s)).
  - rewrite Hi. by destruct (value (_widget s)).
Qed.

Lemma setInput_begin_saved input options token s :
  setInput_begin input options token s =
  (Normal (AwaitSuperSetInput (_group s) input options token),
   set_input (Some (NotebookInput input))
     match instanceof_NotebookEditorInput (_input s) with
     | Some previous => saved previous s
     | None => s
     end).
Proof.
  unfold setInput_begin, super_setInput. run_body.
  destruct (instanceof_NotebookEditorInput (_input s)); [|done].
  by rewrite saveEditorViewState_saved.
Qed.

Lemma new_calls_app {A} (m : M A) s l :
  calls (exec m s) = calls s ++ l -> new_calls m s = l.
Proof. unfold new_calls. intros ->. apply drop_length_app. Qed.

Lemma new_calls_same {A} (m : M A) s :
  calls (exec m s) = calls s -> new_calls m s = [].
Proof. unfold new_calls. intros ->. apply drop_length_self. Qed.

Definition writes_store {A} (m : M A) (s : NotebookEditor) : bool :=
  existsb is_save (new_calls m s).

Lemma saved_calls input s :
  calls (saved input s) =
  calls s ++
  match _group s, value (_widget s) with
  | Some g, Some w =>
      [WidgetGetEditorViewState (getId w);
       MementoSave (group_id g) (resource input) (getEditorViewState w)]
  | _, _ => []
  end.
Proof.
  unfold saved. destruct (_group s), (value (_widget s)); simpl;
    rewrite <- ?app_assoc, ?app_nil_r; done.
Qed.

Lemma saved_memento input s :
  editorMemento (saved input s) =
  match _group s, value (_widget s) with
  | Some g, Some w =>
      <[(group_id g, resource input) := getEditorViewState w]>
        (editorMemento s)
  | _, _ => editorMemento s
  end.
Proof. unfold saved. by destruct (_group s), (value (_widget s)). Qed.

(** ** Example data, used to run the model *)

Module Sample.
Definition G : IEditorGroup := {| group_id := 1 |}.
Definition A : NotebookEditorInput :=
  {| input_ref := 1; resource := "doc://A"; viewType := "notebook" |}.
Definition B : NotebookEditorInput :=
  {| input_ref := 2; resource := "doc://B"; viewType := "unregistered" |}.
Definition wA : NotebookEditorWidget :=
  {| getId := "widget-A"; viewModel := None;
     getEditorViewState := {| state_blob := "scroll=0" |} |}.
Definition wB : NotebookEditorWidget :=
  {| getId := "widget-B"; viewModel := None;
     getEditorViewState := {| state_blob := "scroll=0" |} |}.
(** [wA] once document A is installed and the user has scrolled. *)
Definition wA_shown : NotebookEditorWidget :=
  {| getId := "widget-A";
     viewModel := Some {| uri := "doc://A"; handle := 7 |};
     getEditorViewState := {| state_blob := "scroll=120" |} |}.
Definition modelA : NotebookEditorModel :=
  {| notebook := {| notebook_uri := "doc://A"; notebook_handle := 7 |} |}.
Definition modelB : NotebookEditorModel :=
  {| notebook := {| notebook_uri := "doc://B"; notebook_handle := 8 |} |}.
Definition tokenA : CancellationToken := 0%nat.
Definition tokenB : CancellationToken := 1%nat.
Definition size : Dimension := {| width := 800; height := 600 |}.

(** The pane shown in group [G] with input [A] opened to the end:
    widget borrowed, document resolved, model installed. *)
Definition open_A : list HostOp :=
  [ CallSetEditorVisible true (Some G);
    CallSetInput A None tokenA;
    Resume 0 (Borrowed {| value := Some wA |});
    Resume 0 (Resolved (Some modelA));
    Resume 0 ModelSet;
    WidgetChanged {| value := Some wA_shown |} ].

Definition showing_A : Host := run open_A (new_Host false).

(** The same pane after the widget service has handed the widget to
    another borrower: the borrow's [value] is [undefined]. *)
Definition A_without_widget : Host :=
  step (WidgetChanged {| value := None |}) showing_A.

(** The event of [A] being closed in the group. *)
Definition closing_A : IEditorCloseEvent :=
  {| editor := NotebookInput A |}.
End Sample.

Example showing_A_state :
  _input (pane Sample.showing_A) = Some (NotebookInput Sample.A) /\
  _group (pane Sample.showing_A) = Some Sample.G /\
  value (_widget (pane Sample.showing_A)) = Some Sample.wA_shown /\
  pending Sample.showing_A = [] /\
  calls (pane Sample.showing_A) =
    [ ServiceRetrieveWidget (Some Sample.G) Sample.A;
      InputResolve Sample.A "widget-A";
      MementoLoad 1 "doc://A";
      WidgetSetModel "widget-A" (notebook Sample.modelA) None None;
      WidgetOnDidFocus "widget-A" ].
Proof. vm_compute. done. Qed.

(** ** View-state saves *)

(** C10.  Without an editor group or without a borrowed widget no save
    path touches the store: the save helper, [saveState],
    [onWillCloseEditorInGroup] and the save at the start of [setInput]
    leave the whole object as it was (the last one apart from recording the
    new input), so they neither ask the widget for its state nor write;
    [onWillHide] leaves the store as it was and calls nothing but the
    widget's [onWillHide]. *)
Theorem save_paths_need_group_and_widget (s : NotebookEditor) :
  _group s = None \/ value (_widget s) = None ->
  (forall input, saveEditorViewState input s = (Normal tt, s)) /\
  exec saveState s = s /\
  (forall e, exec (onWillCloseEditorInGroup e) s = s) /\
  (editorMemento (exec onWillHide s) = editorMemento s /\
   forall c, c ∈ new_calls onWillHide s -> exists id, c = WidgetOnWillHide id) /\
  (forall input options token,
     exec (setInput_begin input options token) s =
     set_input (Some (NotebookInput input)) s).
Proof.
  intros Hguard.
  assert (Hs : forall input, saved input s = s)
    by (intros; by apply saved_guard).
  repeat split.
  - intros input. by rewrite saveEditorViewState_saved, Hs.
  - rewrite saveState_saved.
    destruct (instanceof_NotebookEditorInput (_input s)); by rewrite ?Hs.
  - intros e. rewrite onWillCloseEditorInGroup_saved.
    destruct (as_notebook (editor e)); [|done]. case_decide; by rewrite ?Hs.
  - rewrite onWillHide_saved. simpl.
    destruct (instanceof_NotebookEditorInput (_input s)); rewrite ?Hs;
      by destruct (_input s), (value (_widget s)).
  - intros c. unfold new_calls. rewrite onWillHide_saved. simpl.
    assert (Hs1 : match instanceof_NotebookEditorInput (_input s) with
                  | Some input => saved input s
                  | None => s
                  end = s)
      by (destruct (instanceof_NotebookEditorInput (_input s)); by rewrite ?Hs).
    rewrite Hs1.
    destruct (_input s), (value (_widget s)); simpl;
      rewrite ?drop_length_app, ?drop_length_self;
      intros Hc; try (by apply elem_of_nil in Hc).
    apply list_elem_of_singleton in Hc. eauto.
  - intros input options token. unfold exec.
    rewrite setInput_begin_saved. simpl.
    destruct (instanceof_NotebookEditorInput (_input s)); by rewrite ?Hs.
Qed.

Lemma save_paths_need_group_and_widget_witness :
  value (_widget (pane Sample.A_without_widget)) = None /\
  exec saveState (pane Sample.A_without_widget) = pane Sample.A_without_widget.
Proof.
  split; [reflexivity|].
  apply (save_paths_need_group_and_widget (pane Sample.A_without_widget)).
  right. reflexivity.
Defined.

(** C6, as stated, fails: the closing input is the current input, a
    notebook input, and the pane has a group, but the borrow holds no
    widget; [onWillCloseEditorInGroup] then writes nothing. *)
Lemma close_current_without_widget_writes_nothing :
  Some (editor Sample.closing_A) = _input (pane Sample.A_without_widget) /\
  _group (pane Sample.A_without_widget) = Some Sample.G /\
  writes_store (onWillCloseEditorInGroup Sample.closing_A)
    (pane Sample.A_without_widget) = false /\
  exec (onWillCloseEditorInGroup Sample.closing_A)
    (pane Sample.A_without_widget) = pane Sample.A_without_widget.
Proof. vm_compute. done. Qed.

(** C6, amended.  [onWillCloseEditorInGroup] leaves the whole object as it
    was when the closing input is not a notebook input or is not the
    current input; it writes the store exactly when the closing input is a
    notebook input, is the current input, and the pane has both a group
    and a borrowed widget, and what it then writes is the widget's view
    state under the group's id and the input's resource. *)
Theorem onWillCloseEditorInGroup_writes_iff (s : NotebookEditor)
    (e : IEditorCloseEvent) :
  (as_notebook (editor e) = None \/ Some (editor e) <> _input s ->
   exec (onWillCloseEditorInGroup e) s = s) /\
  (writes_store (onWillCloseEditorInGroup e) s = true <->
   exists n g w, editor e = NotebookInput n /\ _input s = Some (editor e) /\
                 _group s = Some g /\ value (_widget s) = Some w) /\
  (forall n g w,
     editor e = NotebookInput n -> _input s = Some (editor e) ->
     _group s = Some g -> value (_widget s) = Some w ->
     editorMemento (exec (onWillCloseEditorInGroup e) s) =
       <[(group_id g, resource n) := getEditorViewState w]> (editorMemento s) /\
     new_calls (onWillCloseEditorInGroup e) s =
       [WidgetGetEditorViewState (getId w);
        MementoSave (group_id g) (resource n) (getEditorViewState w)]).
Proof.
  split; [|split].
  - rewrite onWillCloseEditorInGroup_saved.
    destruct (editor e) as [n|]; simpl; [|done].
    intros [|Hne]; [done|]. case_decide; congruence.
  - unfold writes_store, new_calls. rewrite onWillCloseEditorInGroup_saved.
    destruct (editor e) as [n|r x]; simpl.
    + case_decide as Hin.
      * rewrite saved_calls, drop_length_app.
        destruct (_group s) as [g|], (value (_widget s)) as [w|]; simpl;
          split; try done; try (by intros (?&?&?&?&?&?&?)).
        intros _. by exists n, g, w.
      * rewrite drop_length_self. simpl. split; [done|].
        intros (?&?&?&?&?&?&?). congruence.
    + rewrite drop_length_self. simpl. split; [done|].
      by intros (?&?&?&?&?&?&?).
  - intros n g w He Hin Hg Hw.
    assert (Hex : exec (onWillCloseEditorInGroup e) s = saved n s).
    { rewrite onWillCloseEditorInGroup_saved, He. simpl.
      rewrite decide_True; [done|]. by rewrite Hin, He. }
    split.
    + by rewrite Hex, saved_memento, Hg, Hw.
    + apply new_calls_app. by rewrite Hex, saved_calls, Hg, Hw.
Qed.

(** C8, as stated, fails in its first half: the current input is a
    notebook input and the pane has a group, but the borrow holds no
    widget; [saveState] then saves nothing. *)
Lemma saveState_without_widget_saves_nothing :
  _input (pane Sample.A_without_widget) = Some (NotebookInput Sample.A) /\
  _group (pane Sample.A_without_widget) = Some Sample.G /\
  writes_store saveState (pane Sample.A_without_widget) = false /\
  editorMemento (exec saveState (pane Sample.A_without_widget))
    !! (1, "doc://A") = None.
Proof. vm_compute. done. Qed.

(** C8, amended.  [saveState] saves the view state for the current input
    when that input is a notebook input and the pane has both a group and
    a borrowed widget, and otherwise leaves the store as it was; and it is
    idempotent on the store: from any state, calling it twice leaves the
    store as calling it once does. *)
Theorem saveState_saves_guarded_and_idempotent (s : NotebookEditor) :
  editorMemento (exec saveState s) =
    match instanceof_NotebookEditorInput (_input s), _group s,
          value (_widget s) with
    | Some input, Some g, Some w =>
        <[(group_id g, resource input) := getEditorViewState w]>
          (editorMemento s)
    | _, _, _ => editorMemento s
    end /\
  writes_store saveState s =
    match instanceof_NotebookEditorInput (_input s), _group s,
          value (_widget s) with
    | Some _, Some _, Some _ => true
    | _, _, _ => false
    end /\
  editorMemento (exec saveState (exec saveState s)) =
    editorMemento (exec saveState s).
Proof.
  split; [|split].
  - rewrite saveState_saved.
    destruct (instanceof_NotebookEditorInput (_input s)) as [i|].
    + apply saved_memento.
    + by destruct (_group s), (value (_widget s)).
  - unfold writes_store, new_calls. rewrite saveState_saved.
    destruct (instanceof_NotebookEditorInput (_input s)) as [i|].
    + rewrite saved_calls, drop_length_app.
      by destruct (_group s), (value (_widget s)).
    + by rewrite drop_length_self.
  - rewrite !saveState_saved.
    destruct (instanceof_NotebookEditorInput (_input s)) as [i|] eqn:Hi.
    + destruct (saved_fields i s) as (-> & _). rewrite Hi. apply saved_idem.
    + by rewrite Hi.
Qed.

(** C9.  [clearInput] completes normally, calls the borrowed widget's
    [onWillHide] when the borrow holds a widget and calls nothing else,
    leaves the pane without an input, and leaves the store as it was. *)
Theorem clearInput_hides_and_keeps_store (s : NotebookEditor) :
  completion clearInput s = Normal tt /\
  new_calls clearInput s =
    match value (_widget s) with
    | Some w => [WidgetOnWillHide (getId w)]
    | None => []
    end /\
  _input (exec clearInput s) = None /\
  editorMemento (exec clearInput s) = editorMemento s /\
  writes_store clearInput s = false.
Proof.
  unfold writes_store, new_calls, clearInput, super_clearInput. run_body.
  destruct (value (_widget s)); simpl;
    rewrite ?drop_length_app, ?drop_length_self; done.
Qed.

(** ** The segments of [setInput] *)

(** The view state [loadTextEditorViewState] finds for a resource. *)
Definition stored (s : NotebookEditor) (res : string)
    : option INotebookEditorViewState :=
  match _group s with
  | Some g => editorMemento s !! (group_id g, res)
  | None => None
  end.

Definition load_calls (s : NotebookEditor) (res : string) : list Call :=
  match _group s with
  | Some g => [MementoLoad (group_id g) res]
  | None => []
  end.

Lemma loadTextEditorViewState_stored input s :
  completion (loadTextEditorViewState input) s = Normal (stored s (resource input)) /\
  calls (exec (loadTextEditorViewState input) s) =
    calls s ++ load_calls s (resource input) /\
  editorMemento (exec (loadTextEditorViewState input) s) = editorMemento s.
Proof.
  unfold loadTextEditorViewState, loadEditorState, stored, load_calls.
  run_body. destruct (_group s); simpl; by rewrite ?app_nil_r.
Qed.

(** The answer [null]: a prompt, and nothing else changes. *)
Lemma setInput_resolved_null input options token s :
  setInput_resolved input options token None s =
  (Normal None,
   log_call (NotificationPrompt fail_noEditor
               [ {| label := fail_reOpen;
                    reopen_resource := resource input;
                    reopen_options := options |} ]) s).
Proof. reflexivity. Qed.

(** The answer is a model and the borrow holds a widget: the stored view
    state is looked up and the model is installed on that widget. *)
Lemma setInput_resolved_model input options token model w s :
  value (_widget s) = Some w ->
  let s' := exec (setInput_resolved input options token (Some model)) s in
  completion (setInput_resolved input options token (Some model)) s =
    Normal (Some (AwaitSetModel input options token)) /\
  calls s' =
    calls s ++ load_calls s (resource input) ++
    [WidgetSetModel (getId w) (notebook model)
       (stored s (resource input)) options] /\
  _input s' = _input s /\ _group s' = _group s /\ _widget s' = _widget s /\
  editorMemento s' = editorMemento s /\ dimension s' = dimension s.
Proof.
  intros Hw. unfold setInput_resolved, loadTextEditorViewState,
    loadEditorState, stored, load_calls.
  run_body. destruct (_group s) eqn:Hg; simpl; rewrite Hw; simpl;
    rewrite <- ?app_assoc; done.
Qed.

(** The same answer with an empty borrow: the view state is looked up and
    the call on the missing widget throws. *)
Lemma setInput_resolved_model_no_widget input options token model s :
  value (_widget s) = None ->
  let s' := exec (setInput_resolved input options token (Some model)) s in
  completion (setInput_resolved input options token (Some model)) s =
    Throw TypeError /\
  calls s' = calls s ++ load_calls s (resource input) /\
  _input s' = _input s /\ _group s' = _group s /\ _widget s' = _widget s /\
  editorMemento s' = editorMemento s.
Proof.
  intros Hw. unfold setInput_resolved, loadTextEditorViewState,
    loadEditorState, stored, load_calls.
  run_body. destruct (_group s) eqn:Hg; simpl; rewrite Hw; simpl;
    rewrite ?app_nil_r; done.
Qed.

Definition hide_calls (s : NotebookEditor) : list Call :=
  match value (_widget s) with
  | Some w => [WidgetOnWillHide (getId w)]
  | None => []
  end.

Definition layout_calls (s : NotebookEditor) (w : NotebookEditorWidget)
    : list Call :=
  match dimension s with
  | Some d => [WidgetLayout (getId w) d]
  | None => []
  end.

(** The segment that borrows, when the borrow holds a widget. *)
Lemma setInput_borrow_widget group input options token b w s :
  value b = Some w ->
  let s' := exec (setInput_borrow group input options token b) s in
  completion (setInput_borrow group input options token b) s =
    Normal (AwaitResolve input options token) /\
  calls s' =
    calls s ++ hide_calls s ++ [ServiceRetrieveWidget group input] ++
    layout_calls s w ++ [InputResolve input (getId w)] /\
  _input s' = _input s /\ _group s' = _group s /\ _widget s' = b /\
  editorMemento s' = editorMemento s /\ dimension s' = dimension s /\
  _widgetDisposableStore s' = [].
Proof.
  intros Hw. unfold setInput_borrow, hide_calls, layout_calls. run_body.
  destruct (value (_widget s)) eqn:Hv, (dimension s) eqn:Hd;
    reduce_with_eqs; rewrite <- ?app_assoc; done.
Qed.

(** The last segment never touches input, group, borrow or store. *)
Lemma setInput_finish_frame input options token s :
  let s' := exec (setInput_finish input options token) s in
  _input s' = _input s /\ _group s' = _group s /\ _widget s' = _widget s /\
  editorMemento s' = editorMemento s /\ dimension s' = dimension s /\
  exists l, calls s' = calls s ++ l /\
            forallb (fun c => negb (is_save c) && negb (is_setModel c)) l = true.
Proof.
  unfold setInput_finish. run_body.
  destruct (value (_widget s)) as [w|] eqn:Hw; simpl.
  - destruct (editorGroupService_isEditorPart s); simpl; rewrite ?Hw; simpl.
    + repeat split; try done.
      exists [WidgetOnDidFocus (getId w); WidgetGetDomNode (getId w);
              CreateEditorDropTarget (getId w)].
      by rewrite <- !app_assoc.
    + repeat split; try done. by exists [WidgetOnDidFocus (getId w)].
  - repeat split; try done. exists []. by rewrite app_nil_r.
Qed.

(** The state [setInput] leaves at its first [await]. *)
Definition begun (input : NotebookEditorInput) (s : NotebookEditor)
    : NotebookEditor :=
  set_input (Some (NotebookInput input))
    match instanceof_NotebookEditorInput (_input s) with
    | Some previous => saved previous s
    | None => s
    end.

Lemma setInput_upto_resolve_borrow input options token b s :
  setInput_upto_resolve input options token b s =
  setInput_borrow (_group s) input options token b (begun input s).
Proof.
  unfold setInput_upto_resolve. unfold mbind, M_bind.
  by rewrite setInput_begin_saved.
Qed.

Definition save_calls (s : NotebookEditor) : list Call :=
  match instanceof_NotebookEditorInput (_input s), _group s,
        value (_widget s) with
  | Some previous, Some g, Some w =>
      [WidgetGetEditorViewState (getId w);
       MementoSave (group_id g) (resource previous) (getEditorViewState w)]
  | _, _, _ => []
  end.

Lemma begun_fields input s :
  _input (begun input s) = Some (NotebookInput input) /\
  _group (begun input s) = _group s /\
  _widget (begun input s) = _widget s /\
  dimension (begun input s) = dimension s /\
  calls (begun input s) = calls s ++ save_calls s /\
  editorMemento (begun input s) =
    match instanceof_NotebookEditorInput (_input s) with
    | Some previous => editorMemento (saved previous s)
    | None => editorMemento s
    end.
Proof.
  unfold begun, save_calls.
  destruct (instanceof_NotebookEditorInput (_input s)) as [p|]; simpl.
  - destruct (saved_fields p s) as (_ & -> & -> & -> & _).
    rewrite saved_calls. repeat split; try done.
  - rewrite app_nil_r. done.
Qed.

(** The whole part of [setInput] before document resolution is awaited,
    when the borrow holds a widget. *)
Lemma setInput_upto_resolve_widget input options token b w s :
  value b = Some w ->
  let s' := exec (setInput_upto_resolve input options token b) s in
  completion (setInput_upto_resolve input options token b) s =
    Normal (AwaitResolve input options token) /\
  calls s' =
    calls s ++ save_calls s ++ hide_calls s ++
    [ServiceRetrieveWidget (_group s) input] ++
    layout_calls s w ++ [InputResolve input (getId w)] /\
  _input s' = Some (NotebookInput input) /\
  _group s' = _group s /\ _widget s' = b /\
  editorMemento s' =
    match instanceof_NotebookEditorInput (_input s) with
    | Some previous => editorMemento (saved previous s)
    | None => editorMemento s
    end.
Proof.
  intros Hw. unfold exec, completion.
  rewrite setInput_upto_resolve_borrow.
  destruct (setInput_borrow_widget (_group s) input options token b w
              (begun input s) Hw) as (Hc & Hcalls & Hi & Hg & Hwd & Hm & _).
  destruct (begun_fields input s) as (Bi & Bg & Bw & Bd & Bc & Bm).
  unfold exec, completion in *. simpl.
  repeat split; try congruence.
  rewrite Hcalls, Bc. unfold hide_calls, layout_calls.
  rewrite Bw, Bd. by rewrite <- !app_assoc.
Qed.

(** ** Resolution answers [null] *)

Module Scenario.
(** The scenario of the specification: with [A] shown, assign [B], whose
    type has no handler; the document resolves to [null]. *)
Definition assign_B_unresolved : Host :=
  run [ CallSetInput Sample.B None Sample.tokenB;
        Resume 0 (Borrowed {| value := Some Sample.wB |});
        Resume 0 (Resolved None) ]
    Sample.showing_A.
End Scenario.

(** C2, as stated, fails: after resolution has answered [null] the pane is
    not empty.  Its input is the input just assigned and its borrow still
    holds the widget retrieved for it; the prompt was shown and nothing
    was thrown. *)
Lemma null_resolution_keeps_input_and_widget :
  _input (pane Scenario.assign_B_unresolved) = Some (NotebookInput Sample.B) /\
  value (_widget (pane Scenario.assign_B_unresolved)) = Some Sample.wB /\
  rejected Scenario.assign_B_unresolved = [] /\
  pending Scenario.assign_B_unresolved = [] /\
  last (calls (pane Scenario.assign_B_unresolved)) =
    Some (NotificationPrompt fail_noEditor
            [ {| label := fail_reOpen; reopen_resource := "doc://B";
                 reopen_options := None |} ]).
Proof. vm_compute. done. Qed.

(** C2, amended.  When document resolution answers [null], [setInput]
    completes without throwing, its only call is the prompt that offers to
    reopen the resource in the standard text editor (so no model is
    installed), and it changes nothing else: the input, the borrow, the
    group and the store stay as they were.  In particular, after a call
    that went through undisturbed, the input is the one just assigned and
    the borrow is the one just retrieved. *)
Theorem setInput_null_prompts_and_stays (s : NotebookEditor)
    (input : NotebookEditorInput) (options : option EditorOptions)
    (token : CancellationToken) :
  let s' := exec (setInput_resolved input options token None) s in
  completion (setInput_resolved input options token None) s = Normal None /\
  new_calls (setInput_resolved input options token None) s =
    [ NotificationPrompt fail_noEditor
        [ {| label := fail_reOpen; reopen_resource := resource input;
             reopen_options := options |} ] ] /\
  _input s' = _input s /\ _widget s' = _widget s /\ _group s' = _group s /\
  editorMemento s' = editorMemento s /\
  (forall b w,
     value b = Some w ->
     let s1 := exec (setInput_upto_resolve input options token b) s in
     completion (setInput_upto_resolve input options token b) s =
       Normal (AwaitResolve input options token) /\
     _input (exec (setInput_resolved input options token None) s1) =
       Some (NotebookInput input) /\
     _widget (exec (setInput_resolved input options token None) s1) = b).
Proof.
  cbv zeta. split; [reflexivity|]. split; [by apply new_calls_app|].
  do 4 (split; [reflexivity|]).
  intros b w Hw.
  destruct (setInput_upto_resolve_widget input options token b w s Hw)
    as (Hc & _ & Hi & _ & Hb & _).
  split; [exact Hc|]. split; [exact Hi|exact Hb].
Qed.

(** ** [layout] *)

Module LayoutScenario.
(** [A] has just been assigned: the widget is borrowed, fresh, and
    document resolution is still awaited, so the widget has no view
    model yet. *)
Definition awaiting_A : Host :=
  run [ CallSetEditorVisible true (Some Sample.G);
        CallSetInput Sample.A None Sample.tokenA;
        Resume 0 (Borrowed {| value := Some Sample.wA |}) ]
    (new_Host false).
End LayoutScenario.

(** C4, as stated, fails: the borrowed widget reports no document (it has
    no view model), so the input's resource does not match it, and yet
    [layout] forwards the size to the widget. *)
Lemma layout_forwards_to_widget_without_document :
  value (_widget (pane LayoutScenario.awaiting_A)) = Some Sample.wA /\
  viewModel Sample.wA = None /\
  _input (pane LayoutScenario.awaiting_A) = Some (NotebookInput Sample.A) /\
  new_calls (layout Sample.size) (pane LayoutScenario.awaiting_A) =
    [WidgetLayout "widget-A" Sample.size].
Proof. vm_compute. done. Qed.

(** When [layout] passes the size on: a widget is borrowed, the input is a
    notebook input, and the widget either has no view model or has one for
    the input's resource. *)
Definition layout_forwards (s : NotebookEditor) (w : NotebookEditorWidget)
    : Prop :=
  value (_widget s) = Some w /\
  exists input, _input s = Some (NotebookInput input) /\
    (viewModel w = None \/
     exists vm, viewModel w = Some vm /\ uri vm = resource input).

(** C4, amended.  [layout] always caches the size, and it calls the
    widget's [layout] with that size if and only if a widget is borrowed,
    the current input is a notebook input, and the widget either reports
    no document yet or reports the document of the current input; in every
    other case (no widget, another kind of input, a widget showing another
    document) it calls nothing. *)
Theorem layout_caches_and_forwards_iff (s : NotebookEditor) (d : Dimension) :
  completion (layout d) s = Normal tt /\
  dimension (exec (layout d) s) = Some d /\
  (forall w, layout_forwards s w ->
             new_calls (layout d) s = [WidgetLayout (getId w) d]) /\
  ((forall w, ~ layout_forwards s w) -> new_calls (layout d) s = []) /\
  (forall id d', WidgetLayout id d' ∈ new_calls (layout d) s ->
                 exists w, layout_forwards s w /\ id = getId w /\ d' = d).
Proof.
  assert (Hcases :
    completion (layout d) s = Normal tt /\
    dimension (exec (layout d) s) = Some d /\
    ((exists w, layout_forwards s w /\
                new_calls (layout d) s = [WidgetLayout (getId w) d]) \/
     ((forall w, ~ layout_forwards s w) /\ new_calls (layout d) s = []))).
  { unfold new_calls, layout_forwards, layout. run_body.
    destruct (value (_widget s)) as [w|] eqn:Hw; simpl.
    - destruct (_input s) as [[input|]|] eqn:Hi; simpl.
      + destruct (viewModel w) as [vm|] eqn:Hvm.
        * case_decide as Hne; simpl.
          -- rewrite drop_length_self. do 2 (split; [done|]). right.
             split; [|done].
             intros w' (Hw' & i' & Hi' & [Hnone | (vm' & Hvm' & Heq)]);
               simplify_eq.
          -- rewrite drop_length_app. do 2 (split; [done|]). left.
             exists w. split; [|done]. split; [done|].
             exists input. split; [done|]. right. exists vm.
             split; [done|]. by destruct (decide (resource input = uri vm)).
        * simpl. rewrite drop_length_app. do 2 (split; [done|]). left.
          exists w. split; [|done]. split; [done|].
          exists input. split; [done|]. by left.
      + rewrite drop_length_self. do 2 (split; [done|]). right.
        split; [|done]. by intros w' (_ & i' & Hi' & _).
      + rewrite drop_length_self. do 2 (split; [done|]). right.
        split; [|done]. by intros w' (_ & i' & Hi' & _).
    - rewrite drop_length_self. do 2 (split; [done|]). right.
      split; [|done]. by intros w' (Hw' & _). }
  destruct Hcases as (Hc & Hd & Hcase).
  do 2 (split; [done|]). split; [|split].
  - intros w Hf. destruct Hcase as [(w' & Hf' & Hn) | (Hno & _)].
    + destruct Hf as (Hw & _), Hf' as (Hw' & _). congruence.
    + by destruct (Hno w).
  - intros Hno. destruct Hcase as [(w' & Hf' & _) | (_ & Hn)]; [|done].
    by destruct (Hno w').
  - intros id d' Hin. destruct Hcase as [(w & Hf & Hn) | (_ & Hn)].
    + rewrite Hn in Hin. apply list_elem_of_singleton in Hin.
      exists w. by simplify_eq.
    + rewrite Hn in Hin. by apply elem_of_nil in Hin.
Qed.

(** ** Resuming after document resolution *)

(** The calls made by the segment that runs when [input.resolve] has
    answered [r], from state [s]. *)
Definition resolved_calls (input : NotebookEditorInput)
    (options : option EditorOptions) (r : option NotebookEditorModel)
    (s : NotebookEditor) : list Call :=
  match r with
  | None =>
      [ NotificationPrompt fail_noEditor
          [ {| label := fail_reOpen; reopen_resource := resource input;
               reopen_options := options |} ] ]
  | Some model =>
      load_calls s (resource input) ++
      match value (_widget s) with
      | Some w =>
          [ WidgetSetModel (getId w) (notebook model)
              (stored s (resource input)) options ]
      | None => []
      end
  end.

Lemma setInput_resolved_effect input options token r s :
  let s' := exec (setInput_resolved input options token r) s in
  calls s' = calls s ++ resolved_calls input options r s /\
  _input s' = _input s /\ _group s' = _group s /\ _widget s' = _widget s /\
  editorMemento s' = editorMemento s.
Proof.
  destruct r as [model|]; [|done]. unfold resolved_calls.
  destruct (value (_widget s)) as [w|] eqn:Hw.
  - destruct (setInput_resolved_model input options token model w s Hw)
      as (_ & ? & ? & ? & ? & ? & _). done.
  - destruct (setInput_resolved_model_no_widget input options token model s Hw)
      as (_ & ? & ? & ? & ? & ?). by rewrite app_nil_r.
Qed.

Lemma resolved_calls_no_save input options r s :
  existsb is_save (resolved_calls input options r s) = false.
Proof.
  unfold resolved_calls, load_calls.
  destruct r; [|done]. by destruct (_group s), (value (_widget s)).
Qed.

Lemma pane_settle r rest h : pane (settle r rest h) = r.2.
Proof. by destruct r as [[[f|]|err] p]. Qed.

Lemma step_resume_resolved h k input options token r :
  pending h !! k = Some (AwaitResolve input options token) ->
  step (Resume k (Resolved r)) h =
  settle (setInput_resolved input options token r (pane h))
    (delete k (pending h)) h.
Proof. intros Hk. simpl. by rewrite Hk. Qed.

Module Superseded.
(** [setInput(A)] has borrowed its widget and awaits resolution;
    [setInput(B)] is then called and has borrowed its own widget. *)
Definition B_over_A : Host :=
  run [ CallSetEditorVisible true (Some Sample.G);
        CallSetInput Sample.A None Sample.tokenA;
        Resume 0 (Borrowed {| value := Some Sample.wA |});
        CallSetInput Sample.B None Sample.tokenB;
        Resume 1 (Borrowed {| value := Some Sample.wB |}) ]
    (new_Host false).

(** The resolution of [A] then completes with a model. *)
Definition A_resumed : Host :=
  step (Resume 0 (Resolved (Some Sample.modelA))) B_over_A.
End Superseded.

(** C1, as stated, fails: the call for [A] is suspended at document
    resolution, [B] has become the input and its widget the borrowed one,
    and when [A]'s resolution completes its continuation calls [setModel]:
    it installs [A]'s document on [B]'s widget. *)
Lemma stale_continuation_calls_setModel :
  pending Superseded.B_over_A !! 0%nat =
    Some (AwaitResolve Sample.A None Sample.tokenA) /\
  _input (pane Superseded.B_over_A) = Some (NotebookInput Sample.B) /\
  value (_widget (pane Superseded.B_over_A)) = Some Sample.wB /\
  calls (pane Superseded.A_resumed) =
    calls (pane Superseded.B_over_A) ++
    [ MementoLoad 1 "doc://A";
      WidgetSetModel "widget-B" (notebook Sample.modelA)
        (Some {| state_blob := "scroll=0" |}) None ].
Proof. vm_compute. done. Qed.

(** C1, amended.  A continuation of [setInput(A)] that resumes after
    another input has been assigned (or the input cleared) does not check
    that it has been superseded.  It never writes the store and changes
    neither the current input nor the borrow, but it acts on the widget
    borrowed at that moment: when resolution has answered [null] it shows
    the prompt, and when it has answered a model it looks up the view
    state stored for [A]'s resource and calls [setModel] with [A]'s
    document on that widget. *)
Theorem stale_continuation_acts_on_current_widget (h : Host) (k : nat)
    (A : NotebookEditorInput) (options : option EditorOptions)
    (token : CancellationToken) (r : option NotebookEditorModel) :
  pending h !! k = Some (AwaitResolve A options token) ->
  _input (pane h) <> Some (NotebookInput A) ->
  let h' := step (Resume k (Resolved r)) h in
  editorMemento (pane h') = editorMemento (pane h) /\
  _input (pane h') = _input (pane h) /\
  _widget (pane h') = _widget (pane h) /\
  calls (pane h') = calls (pane h) ++ resolved_calls A options r (pane h) /\
  existsb is_save (resolved_calls A options r (pane h)) = false /\
  (forall model w,
     r = Some model -> value (_widget (pane h)) = Some w ->
     WidgetSetModel (getId w) (notebook model)
       (stored (pane h) (resource A)) options ∈ calls (pane h')).
Proof.
  intros Hk _. cbv zeta. rewrite (step_resume_resolved _ _ _ _ _ _ Hk).
  rewrite pane_settle.
  destruct (setInput_resolved_effect A options token r (pane h))
    as (Hc & Hi & _ & Hw & Hm).
  unfold exec in *. repeat split; try done.
  - apply resolved_calls_no_save.
  - intros model w -> Hv. rewrite Hc. unfold resolved_calls. rewrite Hv.
    rewrite !elem_of_app. right. right. by apply list_elem_of_singleton.
Qed.

Lemma stale_continuation_acts_on_current_widget_witness :
  WidgetSetModel "widget-B" (notebook Sample.modelA)
    (stored (pane Superseded.B_over_A) "doc://A") None
  ∈ calls (pane Superseded.A_resumed).
Proof.
  refine (proj2 (proj2 (proj2 (proj2 (proj2
    (stale_continuation_acts_on_current_widget Superseded.B_over_A 0
       Sample.A None Sample.tokenA (Some Sample.modelA) _ _)))))
    Sample.modelA Sample.wB _ _).
  - reflexivity.
  - vm_compute. discriminate.
  - reflexivity.
  - reflexivity.
Defined.

(** ** Cancellation *)

Module Cancelled.
(** [setInput(A)] awaits resolution when its token is signalled; the
    resolution then completes with a model. *)
Definition awaiting : Host :=
  run [ CallSetEditorVisible true (Some Sample.G);
        CallSetInput Sample.A None Sample.tokenA;
        Resume 0 (Borrowed {| value := Some Sample.wA |});
        CancelToken Sample.tokenA ]
    (new_Host false).

Definition resumed : Host :=
  step (Resume 0 (Resolved (Some Sample.modelA))) awaiting.

(** The resolution completes with [null] instead. *)
Definition resumed_null : Host :=
  step (Resume 0 (Resolved None)) awaiting.
End Cancelled.

(** C5, as stated, fails: the token of the suspended call has been
    signalled, and the call still goes on when resolution completes: with
    a model it calls [setModel], with [null] it shows the prompt; and the
    input is the newly assigned one, not the previous (none). *)
Lemma cancelled_call_still_sets_model :
  pending Cancelled.awaiting =
    [AwaitResolve Sample.A None Sample.tokenA] /\
  Sample.tokenA ∈ cancelled Cancelled.awaiting /\
  _input (pane (new_Host false)) = None /\
  _input (pane Cancelled.resumed) = Some (NotebookInput Sample.A) /\
  calls (pane Cancelled.resumed) =
    calls (pane Cancelled.awaiting) ++
    [ MementoLoad 1 "doc://A";
      WidgetSetModel "widget-A" (notebook Sample.modelA) None None ] /\
  calls (pane Cancelled.resumed_null) =
    calls (pane Cancelled.awaiting) ++
    [ NotificationPrompt fail_noEditor
        [ {| label := fail_reOpen; reopen_resource := "doc://A";
             reopen_options := None |} ] ].
Proof.
  split; [reflexivity|]. split; [|vm_compute; done].
  apply (bool_decide_unpack _). vm_compute. exact I.
Qed.

(** The host with another set of signalled tokens. *)
Definition with_cancelled (c : gset nat) (h : Host) : Host :=
  {| pane := pane h; pending := pending h; cancelled := c;
     rejected := rejected h |}.

Lemma settle_with_cancelled r rest c h :
  settle r rest (with_cancelled c h) = with_cancelled c (settle r rest h).
Proof. by destruct r as [[[f|]|err] p]. Qed.

(** Resuming a suspended call does not read the signalled tokens. *)
Lemma resume_ignores_cancelled k a c h :
  step (Resume k a) (with_cancelled c h) =
  with_cancelled c (step (Resume k a) h).
Proof.
  simpl. destruct (pending h !! k) as [f|]; [|done].
  destruct (resume_frame f a) as [body|]; [|done].
  apply settle_with_cancelled.
Qed.

(** C5, amended.  The token given to [setInput] is handed to the base
    class and never consulted again: a signal while the call awaits
    document resolution changes nothing in what the call does when it
    resumes.  Whatever tokens are signalled, the resumed call leaves the
    same pane, the same suspended calls and the same rejections; with the
    token signalled it still shows the prompt (on [null]) or looks up the
    view state and calls [setModel] on the borrowed widget (on a model),
    and it leaves the current input as it is, which is the newly assigned
    input unless something else has replaced it. *)
Theorem cancellation_is_not_observed (h : Host) (k : nat)
    (input : NotebookEditorInput) (options : option EditorOptions)
    (token : CancellationToken) (r : option NotebookEditorModel) :
  pending h !! k = Some (AwaitResolve input options token) ->
  token ∈ cancelled h ->
  let h' := step (Resume k (Resolved r)) h in
  (forall c,
     pane (step (Resume k (Resolved r)) (with_cancelled c h)) = pane h' /\
     pending (step (Resume k (Resolved r)) (with_cancelled c h)) = pending h' /\
     rejected (step (Resume k (Resolved r)) (with_cancelled c h)) = rejected h') /\
  calls (pane h') = calls (pane h) ++ resolved_calls input options r (pane h) /\
  _input (pane h') = _input (pane h) /\
  _widget (pane h') = _widget (pane h) /\
  (forall model w,
     r = Some model -> value (_widget (pane h)) = Some w ->
     WidgetSetModel (getId w) (notebook model)
       (stored (pane h) (resource input)) options ∈ calls (pane h')).
Proof.
  intros Hk _. cbv zeta. split.
  { intros c. by rewrite resume_ignores_cancelled. }
  rewrite (step_resume_resolved _ _ _ _ _ _ Hk), pane_settle.
  destruct (setInput_resolved_effect input options token r (pane h))
    as (Hc & Hi & _ & Hw & _).
  unfold exec in *. repeat split; try done.
  intros model w -> Hv. rewrite Hc. unfold resolved_calls. rewrite Hv.
  rewrite !elem_of_app. right. right. by apply list_elem_of_singleton.
Qed.

Lemma cancellation_is_not_observed_witness :
  _input (pane Cancelled.resumed) = _input (pane Cancelled.awaiting).
Proof.
  refine (proj1 (proj2 (proj2
    (cancellation_is_not_observed Cancelled.awaiting 0 Sample.A None
       Sample.tokenA (Some Sample.modelA) _ _)))).
  - reflexivity.
  - apply (bool_decide_unpack _). vm_compute. exact I.
Defined.

(** ** Switching inputs *)

(** The segment that borrows, whatever the borrow holds: it hides the
    widget held so far, asks the service, and then makes no call other
    than [layout] and [resolve]; the store, the input and the group stay. *)
Lemma setInput_borrow_any group input options token b s :
  let s' := exec (setInput_borrow group input options token b) s in
  (exists tail,
     calls s' =
       calls s ++ hide_calls s ++ [ServiceRetrieveWidget group input] ++ tail /\
     forallb (fun c => negb (is_setModel c) && negb (is_save c)) tail = true) /\
  _input s' = _input s /\ _group s' = _group s /\
  editorMemento s' = editorMemento s.
Proof.
  destruct (value b) as [w|] eqn:Hb.
  - destruct (setInput_borrow_widget group input options token b w s Hb)
      as (_ & Hc & ? & ? & _ & ? & _).
    cbv zeta. repeat split; try done.
    exists (layout_calls s w ++ [InputResolve input (getId w)]).
    split; [done|]. unfold layout_calls. by destruct (dimension s).
  - unfold setInput_borrow, hide_calls. run_body.
    destruct (value (_widget s)) eqn:Hv, (dimension s) eqn:Hd;
      reduce_with_eqs; repeat split; try done;
      exists []; by rewrite <- ?app_assoc, ?app_nil_r.
Qed.

(** ** Every write to the store is logged *)

(** A body is [logged] when it only appends to the log and leaves every
    entry of the store for which it logs no save as it was. *)
Definition logged {A} (m : M A) : Prop :=
  forall s, exists l,
    calls (m s).2 = calls s ++ l /\
    forall g r, existsb (is_save_at g r) l = false ->
                editorMemento (m s).2 !! (g, r) = editorMemento s !! (g, r).

Section Logged.
Context {A B : Type}.

Lemma logged_ret (a : A) : logged (mret a).
Proof. intros s. exists []. by rewrite app_nil_r. Qed.

Lemma logged_throw (err : string) : logged (@throw A err).
Proof. intros s. exists []. by rewrite app_nil_r. Qed.

Lemma logged_bind (m : M A) (f : A -> M B) :
  logged m -> (forall a, logged (f a)) -> logged (m ≫= f).
Proof.
  intros Hm Hf s. unfold mbind, M_bind.
  destruct (Hm s) as (l1 & Hc1 & Hs1).
  destruct (m s) as [[a|err] s1]; simpl in *.
  - destruct (Hf a s1) as (l2 & Hc2 & Hs2).
    exists (l1 ++ l2). split; [by rewrite Hc2, Hc1, app_assoc|].
    intros g r Hno. rewrite existsb_app in Hno.
    apply orb_false_iff in Hno as [Hno1 Hno2].
    by rewrite Hs2, Hs1.
  - by exists l1.
Qed.

Lemma logged_fmap (g : A -> B) (m : M A) : logged m -> logged (g <$> m).
Proof.
  intros Hm s. unfold fmap, M_fmap. destruct (Hm s) as (l & Hc & Hs).
  exists l. by destruct (m s) as [[a|err] s1].
Qed.
End Logged.

Lemma logged_get : logged get.
Proof. intros s. exists []. by rewrite app_nil_r. Qed.

Lemma logged_call c : is_save c = false -> logged (call c).
Proof.
  intros Hc s. exists [c]. split; [done|]. done.
Qed.

Lemma logged_modify f :
  (forall e, calls (f e) = calls e /\ editorMemento (f e) = editorMemento e) ->
  logged (modify f).
Proof.
  intros Hf s. exists []. destruct (Hf s) as (Hc & Hm). simpl.
  by rewrite app_nil_r, Hc, Hm.
Qed.

Lemma logged_saveEditorState group res state :
  logged (saveEditorState group res state).
Proof.
  intros s. exists [MementoSave (group_id group) res state].
  split; [done|]. intros g r Hno. simpl in *.
  rewrite orb_false_r in Hno. apply andb_false_iff in Hno.
  apply lookup_insert_ne. intros [= <- <-].
  destruct Hno as [Hno | Hno]; by rewrite bool_decide_eq_false in Hno.
Qed.

Ltac logged_step :=
  cbv beta;
  lazymatch goal with
  | |- logged (mret _) => apply logged_ret
  | |- logged get => apply logged_get
  | |- logged (throw _) => apply logged_throw
  | |- logged (saveEditorState _ _ _) => apply logged_saveEditorState
  | |- logged (call _) => apply logged_call; reflexivity
  | |- logged (modify _) => apply logged_modify; intros; split; reflexivity
  | |- logged (_ <$> _) => apply logged_fmap
  | |- logged (_ ≫= _) => apply logged_bind; [|intros ?]
  | |- logged (match ?x with _ => _ end) => destruct x
  end.

Lemma logged_saveEditorViewState input : logged (saveEditorViewState input).
Proof. unfold saveEditorViewState. repeat logged_step. Qed.

Lemma logged_widget_value : logged widget_value.
Proof. unfold widget_value. repeat logged_step. Qed.

Ltac solve_logged :=
  repeat first
    [ apply logged_saveEditorViewState
    | apply logged_widget_value
    | logged_step ].

Lemma logged_setInput_begin input options token :
  logged (setInput_begin input options token).
Proof. unfold setInput_begin, super_setInput. solve_logged. Qed.

Lemma logged_setInput_borrow group input options token b :
  logged (setInput_borrow group input options token b).
Proof. unfold setInput_borrow. solve_logged. Qed.

Lemma logged_setInput_resolved input options token r :
  logged (setInput_resolved input options token r).
Proof.
  unfold setInput_resolved, loadTextEditorViewState, loadEditorState.
  solve_logged.
Qed.

Lemma logged_setInput_finish input options token :
  logged (setInput_finish input options token).
Proof. unfold setInput_finish. solve_logged. Qed.

Lemma logged_clearInput : logged clearInput.
Proof. unfold clearInput, super_clearInput. solve_logged. Qed.

Lemma logged_onWillHide : logged onWillHide.
Proof. unfold onWillHide, super_onWillHide. solve_logged. Qed.

Lemma logged_setEditorVisible visible group :
  logged (setEditorVisible visible group).
Proof. unfold setEditorVisible, super_setEditorVisible. solve_logged. Qed.

Lemma logged_onWillCloseEditorInGroup e : logged (onWillCloseEditorInGroup e).
Proof. unfold onWillCloseEditorInGroup. solve_logged. Qed.

Lemma logged_layout d : logged (layout d).
Proof. unfold layout. solve_logged. Qed.

Lemma logged_saveState : logged saveState.
Proof. unfold saveState, super_saveState. solve_logged. Qed.

(** The same for the steps of the host and for whole schedules. *)
Definition logged_between (h h' : Host) : Prop :=
  exists l,
    calls (pane h') = calls (pane h) ++ l /\
    forall g r, existsb (is_save_at g r) l = false ->
                editorMemento (pane h') !! (g, r) =
                editorMemento (pane h) !! (g, r).

Lemma logged_between_refl h : logged_between h h.
Proof. exists []. by rewrite app_nil_r. Qed.

Lemma logged_between_trans h1 h2 h3 :
  logged_between h1 h2 -> logged_between h2 h3 -> logged_between h1 h3.
Proof.
  intros (l1 & Hc1 & Hs1) (l2 & Hc2 & Hs2). exists (l1 ++ l2).
  split; [by rewrite Hc2, Hc1, app_assoc|].
  intros g r Hno. rewrite existsb_app in Hno.
  apply orb_false_iff in Hno as [Hno1 Hno2]. by rewrite Hs2, Hs1.
Qed.

Lemma logged_settle (m : M (option Frame)) rest h :
  logged m -> logged_between h (settle (m (pane h)) rest h).
Proof.
  intros Hm. destruct (Hm (pane h)) as (l & Hc & Hs).
  exists l. by rewrite pane_settle.
Qed.

Lemma step_logged op h : logged_between h (step op h).
Proof.
  destruct op as [input options token| | |visible group|e|d| |k a|token|b];
    cbn [step];
    try (apply logged_settle; solve_logged;
         first [ apply logged_setInput_begin | apply logged_clearInput
               | apply logged_onWillHide | apply logged_setEditorVisible
               | apply logged_onWillCloseEditorInGroup | apply logged_layout
               | apply logged_saveState ]).
  - destruct (pending h !! k) as [f|]; [|apply logged_between_refl].
    destruct f, a; simpl; try apply logged_between_refl;
      apply logged_settle; solve_logged.
    + apply logged_setInput_borrow.
    + apply logged_setInput_resolved.
    + apply logged_setInput_finish.
  - exists []. by rewrite app_nil_r.
  - exists []. by rewrite app_nil_r.
Qed.

Lemma run_logged ops h : logged_between h (run ops h).
Proof.
  revert h. induction ops as [|op ops IH]; intros h.
  - apply logged_between_refl.
  - simpl. eapply logged_between_trans; [apply step_logged | apply IH].
Qed.

(** An entry of the store survives a schedule that logs no save for it. *)
Lemma run_keeps_entry ops h g r :
  existsb (is_save_at g r)
    (drop (length (calls (pane h))) (calls (pane (run ops h)))) = false ->
  editorMemento (pane (run ops h)) !! (g, r) = editorMemento (pane h) !! (g, r).
Proof.
  destruct (run_logged ops h) as (l & Hc & Hs).
  rewrite Hc, drop_length_app. apply Hs.
Qed.

(** ** Round trip of the view state *)

Module Reopen.
(** With [A] shown and scrolled, its view state is saved; the editor is
    then closed and [A] is assigned again. *)
Definition saved_A : Host :=
  with_pane (exec (saveEditorViewState Sample.A) (pane Sample.showing_A))
    Sample.showing_A.

Definition reassign : list HostOp :=
  [ CallClearInput;
    CallSetInput Sample.A None Sample.tokenA;
    Resume 0 (Borrowed {| value := Some Sample.wA |}) ].
End Reopen.

(** C7.  Once the controller has saved the view state [S] of its widget
    for an input with resource [U] in group [G], and as long as no later
    save is made for the same group and resource, a [setInput] for an
    input with resource [U] that resumes from document resolution while
    the pane is in group [G] finds exactly [S]: [loadTextEditorViewState]
    yields it, and it is the view state handed to the widget's
    [setModel]. *)
Theorem view_state_round_trip (h : Host) (G : IEditorGroup)
    (w : NotebookEditorWidget) (i : NotebookEditorInput) (ops : list HostOp)
    (k : nat) (i' : NotebookEditorInput) (options : option EditorOptions)
    (token : CancellationToken) (model : NotebookEditorModel)
    (G2 : IEditorGroup) (w2 : NotebookEditorWidget) :
  _group (pane h) = Some G ->
  value (_widget (pane h)) = Some w ->
  let h1 := with_pane (exec (saveEditorViewState i) (pane h)) h in
  let h2 := run ops h1 in
  existsb (is_save_at (group_id G) (resource i))
    (drop (length (calls (pane h1))) (calls (pane h2))) = false ->
  pending h2 !! k = Some (AwaitResolve i' options token) ->
  resource i' = resource i ->
  _group (pane h2) = Some G2 -> group_id G2 = group_id G ->
  value (_widget (pane h2)) = Some w2 ->
  editorMemento (pane h1) !! (group_id G, resource i) =
    Some (getEditorViewState w) /\
  completion (loadTextEditorViewState i') (pane h2) =
    Normal (Some (getEditorViewState w)) /\
  calls (pane (step (Resume k (Resolved (Some model))) h2)) =
    calls (pane h2) ++
    [ MementoLoad (group_id G) (resource i);
      WidgetSetModel (getId w2) (notebook model)
        (Some (getEditorViewState w)) options ].
Proof.
  intros Hg Hw h1 h2 Hno Hk Hres Hg2 Hid Hw2.
  assert (H1 : editorMemento (pane h1) !! (group_id G, resource i) =
               Some (getEditorViewState w)).
  { subst h1. simpl. unfold exec. rewrite saveEditorViewState_saved. simpl.
    rewrite saved_memento, Hg, Hw. apply lookup_insert_eq. }
  assert (H2 : stored (pane h2) (resource i') = Some (getEditorViewState w)).
  { unfold stored. rewrite Hg2, Hid, Hres. subst h2.
    by rewrite run_keeps_entry. }
  split; [done|]. split.
  - destruct (loadTextEditorViewState_stored i' (pane h2)) as (-> & _).
    by rewrite H2.
  - rewrite (step_resume_resolved _ _ _ _ _ _ Hk), pane_settle.
    destruct (setInput_resolved_model i' options token model w2 (pane h2) Hw2)
      as (_ & Hc & _).
    unfold exec in Hc. rewrite Hc, H2. unfold load_calls.
    by rewrite Hg2, Hid, Hres.
Qed.

Lemma view_state_round_trip_witness :
  calls (pane (step (Resume 0 (Resolved (Some Sample.modelA)))
                 (run Reopen.reassign Reopen.saved_A))) =
  calls (pane (run Reopen.reassign Reopen.saved_A)) ++
  [ MementoLoad 1 "doc://A";
    WidgetSetModel "widget-A" (notebook Sample.modelA)
      (Some {| state_blob := "scroll=120" |}) None ].
Proof.
  refine (proj2 (proj2
    (view_state_round_trip Sample.showing_A Sample.G Sample.wA_shown
       Sample.A Reopen.reassign 0 Sample.A None Sample.tokenA Sample.modelA
       Sample.G Sample.wA _ _ _ _ _ _ _ _))); reflexivity.
Defined.


(** ** Saving before the widget is released *)

Lemma step_call_setInput h input options token :
  step (CallSetInput input options token) h =
  {| pane := begun input (pane h);
     pending := pending h ++
                [AwaitSuperSetInput (_group (pane h)) input options token];
     cancelled := cancelled h; rejected := rejected h |}.
Proof.
  cbn [step]. unfold fmap, M_fmap. by rewrite setInput_begin_saved.
Qed.

Lemma step_resume_borrow h k group input options token b :
  pending h !! k = Some (AwaitSuperSetInput group input options token) ->
  step (Resume k (Borrowed b)) h =
  settle ((Some <$> setInput_borrow group input options token b) (pane h))
    (delete k (pending h)) h.
Proof. intros Hk. simpl. by rewrite Hk. Qed.

Module NoGroup.
(** [A] is shown with its widget, and the pane has then been taken out of
    its group: [setEditorVisible(false, undefined)]. *)
Definition showing_A : Host :=
  step (CallSetEditorVisible false None) Sample.showing_A.

(** [setInput(B)] is called and runs up to document resolution. *)
Definition B_called : Host :=
  step (CallSetInput Sample.B None Sample.tokenB) showing_A.
Definition B_awaiting : Host :=
  step (Resume 0 (Borrowed {| value := Some Sample.wB |})) B_called.
End NoGroup.

(** C3, as stated, fails: [A] is a notebook input with a borrowed widget,
    but the pane has no group; [setInput(B)] then hides [A]'s widget and
    borrows another without having saved anything. *)
Lemma setInput_without_group_hides_unsaved :
  _input (pane NoGroup.showing_A) = Some (NotebookInput Sample.A) /\
  value (_widget (pane NoGroup.showing_A)) = Some Sample.wA_shown /\
  _group (pane NoGroup.showing_A) = None /\
  calls (pane NoGroup.B_called) = calls (pane NoGroup.showing_A) /\
  calls (pane NoGroup.B_awaiting) =
    calls (pane NoGroup.showing_A) ++
    [ WidgetOnWillHide "widget-A";
      ServiceRetrieveWidget None Sample.B;
      InputResolve Sample.B "widget-B" ] /\
  pending NoGroup.B_awaiting = [AwaitResolve Sample.B None Sample.tokenB] /\
  editorMemento (pane NoGroup.B_awaiting) = ∅.
Proof. vm_compute. done. Qed.

(** C3, amended.  When the pane shows a notebook input [A] with a borrowed
    widget and has an editor group, a call of [setInput(B)] at once, in
    its first segment, asks that widget for its view state and saves it
    under the group and [A]'s resource, where [loadTextEditorViewState]
    finds it, and the call is suspended at its first [await].  Whatever
    the host runs before it resumes the call only adds to the log, and
    keeps the saved entry unless it logs another save for the same group
    and resource.  The resumed call then hides the widget held at that
    moment (the one saved, if nothing ran in between), asks the service
    for another, and makes no call other than the new widget's [layout]
    and [resolve]: no model is installed and nothing more is saved before
    the call suspends at document resolution.  So the save always precedes
    the hide, and both precede the wait for resolution. *)
Theorem setInput_saves_before_hiding (h : Host)
    (A : NotebookEditorInput) (g : IEditorGroup) (w : NotebookEditorWidget)
    (B : NotebookEditorInput) (options : option EditorOptions)
    (token : CancellationToken) (ops : list HostOp) (k : nat)
    (b : IBorrowValue NotebookEditorWidget) :
  _input (pane h) = Some (NotebookInput A) ->
  _group (pane h) = Some g ->
  value (_widget (pane h)) = Some w ->
  let h1 := step (CallSetInput B options token) h in
  let h2 := run ops h1 in
  pending h2 !! k = Some (AwaitSuperSetInput (Some g) B options token) ->
  let h3 := step (Resume k (Borrowed b)) h2 in
  (calls (pane h1) =
     calls (pane h) ++
     [ WidgetGetEditorViewState (getId w);
       MementoSave (group_id g) (resource A) (getEditorViewState w) ] /\
   pending h1 =
     pending h ++ [AwaitSuperSetInput (Some g) B options token] /\
   editorMemento (pane h1) !! (group_id g, resource A) =
     Some (getEditorViewState w) /\
   completion (loadTextEditorViewState A) (pane h1) =
     Normal (Some (getEditorViewState w))) /\
  (exists between,
     calls (pane h2) = calls (pane h1) ++ between /\
     (existsb (is_save_at (group_id g) (resource A)) between = false ->
      editorMemento (pane h2) !! (group_id g, resource A) =
        Some (getEditorViewState w))) /\
  (exists tail,
     calls (pane h3) =
       calls (pane h2) ++ hide_calls (pane h2) ++
       [ServiceRetrieveWidget (Some g) B] ++ tail /\
     forallb (fun c => negb (is_setModel c) && negb (is_save c)) tail = true /\
     forall wB, value b = Some wB ->
       tail = layout_calls (pane h2) wB ++ [InputResolve B (getId wB)] /\
       pending h3 = delete k (pending h2) ++ [AwaitResolve B options token]) /\
  (ops = [] -> hide_calls (pane h2) = [WidgetOnWillHide (getId w)]).
Proof.
  intros Hi Hg Hw h1 h2 Hk h3.
  assert (Hh1 : h1 = {| pane := begun B (pane h);
                        pending := pending h ++
                          [AwaitSuperSetInput (Some g) B options token];
                        cancelled := cancelled h; rejected := rejected h |})
    by (subst h1; by rewrite step_call_setInput, Hg).
  destruct (begun_fields B (pane h)) as (Bi & Bg & Bw & Bd & Bc & Bm).
  assert (Hsave : save_calls (pane h) =
    [ WidgetGetEditorViewState (getId w);
      MementoSave (group_id g) (resource A) (getEditorViewState w) ])
    by (unfold save_calls; by rewrite Hi, Hg, Hw).
  assert (Hm1 : editorMemento (pane h1) !! (group_id g, resource A) =
                Some (getEditorViewState w)).
  { rewrite Hh1. cbn [pane]. rewrite Bm, Hi. simpl.
    rewrite saved_memento, Hg, Hw. apply lookup_insert_eq. }
  split; [|split; [|split]].
  - rewrite Hh1 in Hm1 |- *. cbn [pane pending] in Hm1 |- *.
    rewrite Bc, Hsave. do 2 (split; [done|]). split; [exact Hm1|].
    destruct (loadTextEditorViewState_stored A (begun B (pane h)))
      as (-> & _). unfold stored. rewrite Bg, Hg. by rewrite Hm1.
  - destruct (run_logged ops h1) as (between & Hc & Hkeep).
    exists between. split; [done|]. intros Hno.
    fold h2 in Hkeep. by rewrite Hkeep.
  - subst h3. rewrite (step_resume_borrow _ _ _ _ _ _ _ Hk).
    destruct (setInput_borrow_any (Some g) B options token b (pane h2))
      as ((tail & Hc & Htail) & _).
    exists tail. unfold exec in Hc.
    assert (Hp : pane (settle ((Some <$> setInput_borrow (Some g) B options
                                             token b) (pane h2))
                         (delete k (pending h2)) h2) =
                 (setInput_borrow (Some g) B options token b (pane h2)).2).
    { rewrite pane_settle. unfold fmap, M_fmap.
      by destruct (setInput_borrow (Some g) B options token b (pane h2))
        as [[?|?] ?]. }
    rewrite Hp. split; [done|]. split; [done|].
    intros wB HwB.
    destruct (setInput_borrow_widget (Some g) B options token b wB
                (pane h2) HwB) as (Hcomp & Hc' & _).
    unfold exec, completion in *. split.
    + rewrite Hc in Hc'. do 2 apply app_inv_head in Hc'.
      simpl in Hc'. by inversion Hc'.
    + unfold fmap, M_fmap.
      destruct (setInput_borrow (Some g) B options token b (pane h2))
        as [c s']. simpl in Hcomp. by subst c.
  - intros ->. subst h2. simpl. rewrite Hh1. cbn [pane].
    unfold hide_calls. by rewrite Bw, Hw.
Qed.

Lemma setInput_saves_before_hiding_witness :
  hide_calls
    (pane (run [] (step (CallSetInput Sample.B None Sample.tokenB)
                     Sample.showing_A))) =
  [WidgetOnWillHide "widget-A"].
Proof.
  refine (proj2 (proj2 (proj2
    (setInput_saves_before_hiding Sample.showing_A Sample.A Sample.G
       Sample.wA_shown Sample.B None Sample.tokenB [] 0
       {| value := Some Sample.wB |} _ _ _ _))) _); reflexivity.
Defined.

(** * Further properties of the class *)

(** ** [layout]: the width classes of the root element *)

(** Whatever the state, and whether or not the size is passed on to a
    widget, [layout] leaves the root element with class 'narrow-width'
    exactly for widths below 600 and with class 'mid-width' exactly for
    widths from 600 up to, not including, 1000; the two classes never
    hold together, and what was set by earlier layouts is overwritten. *)
Theorem layout_width_classes (s : NotebookEditor) (d : Dimension) :
  let s' := exec (layout d) s in
  (narrow_width s' = true <-> width d < 600) /\
  (mid_width s' = true <-> 600 <= width d < 1000) /\
  (narrow_width s' = false /\ mid_width s' = false <-> 1000 <= width d) /\
  ~ (narrow_width s' = true /\ mid_width s' = true).
Proof.
  assert (Hn : narrow_width (exec (layout d) s) = bool_decide (width d < 600)
               /\ mid_width (exec (layout d) s) =
                  bool_decide (width d < 1000) && bool_decide (600 <= width d)).
  { unfold layout. run_body.
    destruct (value (_widget s)) as [w|]; [|done].
    destruct (instanceof_NotebookEditorInput (_input s)); [|done].
    destruct (viewModel w); [case_decide|]; done. }
  cbv zeta. destruct Hn as [-> ->].
  destruct (decide (width d < 600)) as [H6|H6];
    destruct (decide (width d < 1000)) as [H10|H10];
    destruct (decide (600 <= width d)) as [H6'|H6'];
    rewrite ?(bool_decide_eq_true_2 _ H6), ?(bool_decide_eq_false_2 _ H6),
      ?(bool_decide_eq_true_2 _ H10), ?(bool_decide_eq_false_2 _ H10),
      ?(bool_decide_eq_true_2 _ H6'), ?(bool_decide_eq_false_2 _ H6');
    simpl; intuition (try discriminate; try lia).
Qed.

(** ** [onWillHide] *)

(** With a notebook input, a group and a borrowed widget, [onWillHide]
    first asks the widget for its view state and saves it under the group
    and the input's resource, and only then tells the widget that it will
    be hidden; it completes normally and, unlike [clearInput], keeps the
    input and the borrow. *)
Theorem onWillHide_saves_then_hides (s : NotebookEditor)
    (input : NotebookEditorInput) (g : IEditorGroup)
    (w : NotebookEditorWidget) :
  _input s = Some (NotebookInput input) ->
  _group s = Some g ->
  value (_widget s) = Some w ->
  completion onWillHide s = Normal tt /\
  new_calls onWillHide s =
    [ WidgetGetEditorViewState (getId w);
      MementoSave (group_id g) (resource input) (getEditorViewState w);
      WidgetOnWillHide (getId w) ] /\
  editorMemento (exec onWillHide s) =
    <[(group_id g, resource input) := getEditorViewState w]> (editorMemento s) /\
  _input (exec onWillHide s) = _input s /\
  _widget (exec onWillHide s) = _widget s.
Proof.
  intros Hi Hg Hw. split.
  - unfold onWillHide, super_onWillHide, completion.
    unfold mbind at 1, M_bind at 1, get at 1. rewrite Hi. simpl.
    unfold mbind at 1, M_bind at 1. rewrite saveEditorViewState_saved.
    unfold_M. simpl.
    destruct (saved_fields input s) as (-> & _ & -> & _).
    by rewrite Hi, Hw.
  - assert (Hex : exec onWillHide s =
                  log_call (WidgetOnWillHide (getId w)) (saved input s))
      by (rewrite onWillHide_saved, Hi, Hw; done).
    rewrite Hex. simpl.
    destruct (saved_fields input s) as (Si & _ & Sw & _).
    repeat split; try done.
    + apply new_calls_app. rewrite Hex. simpl.
      rewrite saved_calls, Hg, Hw. by rewrite <- app_assoc.
    + by rewrite saved_memento, Hg, Hw.
Qed.

Lemma onWillHide_saves_then_hides_witness :
  new_calls onWillHide (pane Sample.showing_A) =
    [ WidgetGetEditorViewState "widget-A";
      MementoSave 1 "doc://A" {| state_blob := "scroll=120" |};
      WidgetOnWillHide "widget-A" ].
Proof.
  refine (proj1 (proj2
    (onWillHide_saves_then_hides (pane Sample.showing_A) Sample.A Sample.G
       Sample.wA_shown _ _ _))); reflexivity.
Defined.

(** A pane without an input hides nothing on [onWillHide], even when its
    borrow still holds a widget, whereas [clearInput] hides that widget:
    the first tests [this.input && this._widget.value], the second only
    [this._widget.value]. *)
Theorem onWillHide_without_input_hides_nothing (s : NotebookEditor)
    (w : NotebookEditorWidget) :
  _input s = None ->
  value (_widget s) = Some w ->
  exec onWillHide s = s /\
  new_calls clearInput s = [WidgetOnWillHide (getId w)].
Proof.
  intros Hi Hw. split.
  - rewrite onWillHide_saved. by rewrite Hi.
  - unfold new_calls, clearInput, super_clearInput. run_body.
    rewrite Hw. simpl. apply drop_length_app.
Qed.

Lemma onWillHide_without_input_hides_nothing_witness :
  exec onWillHide (pane (step CallClearInput Sample.showing_A)) =
  pane (step CallClearInput Sample.showing_A).
Proof.
  refine (proj1
    (onWillHide_without_input_hides_nothing
       (pane (step CallClearInput Sample.showing_A)) Sample.wA_shown _ _));
    reflexivity.
Defined.

(** ** Properties kept by every method body *)

(** A body [preserves] a property of the object when the state it ends in
    has the property whenever the state it starts from has, whether it
    completes normally or throws. *)
Definition preserves {A} (P : NotebookEditor -> Prop) (m : M A) : Prop :=
  forall s, P s -> P (m s).2.

Section Preserves.
Context {A B : Type} (P : NotebookEditor -> Prop).

Lemma preserves_ret (a : A) : preserves P (mret a).
Proof. by intros s Hs. Qed.

Lemma preserves_throw (err : string) : preserves P (@throw A err).
Proof. by intros s Hs. Qed.

Lemma preserves_bind (m : M A) (f : A -> M B) :
  preserves P m -> (forall a, preserves P (f a)) -> preserves P (m ≫= f).
Proof.
  intros Hm Hf s Hs. unfold mbind, M_bind. specialize (Hm s Hs).
  destruct (m s) as [[a|err] s1]; simpl in *; [by apply Hf|done].
Qed.

Lemma preserves_fmap (g : A -> B) (m : M A) :
  preserves P m -> preserves P (g <$> m).
Proof.
  intros Hm s Hs. unfold fmap, M_fmap. specialize (Hm s Hs).
  by destruct (m s) as [[a|err] s1].
Qed.
End Preserves.

Lemma preserves_get P : preserves P get.
Proof. by intros s Hs. Qed.

Lemma preserves_modify P f :
  (forall e, P e -> P (f e)) -> preserves P (modify f).
Proof. intros Hf s Hs. by apply Hf. Qed.

Ltac preserves_step :=
  cbv beta;
  lazymatch goal with
  | |- preserves _ (mret _) => apply preserves_ret
  | |- preserves _ get => apply preserves_get
  | |- preserves _ (throw _) => apply preserves_throw
  | |- preserves _ (call _) =>
      unfold call; apply preserves_modify; intros ? ?; simpl in *; done
  | |- preserves _ (modify _) =>
      apply preserves_modify; intros ? ?; simpl in *; done
  | |- preserves _ (_ <$> _) => apply preserves_fmap
  | |- preserves _ (_ ≫= _) => apply preserves_bind; [|intros ?]
  | |- preserves _ (match ?x with _ => _ end) => destruct x
  end.

(** The bodies, unfolded down to the primitives of the monad. *)
Ltac unfold_methods :=
  unfold setInput_upto_resolve, setInput_begin, setInput_borrow,
    setInput_resolved, setInput_finish, clearInput, onWillHide,
    setEditorVisible, onWillCloseEditorInGroup, layout, saveState,
    saveEditorViewState, loadTextEditorViewState, saveEditorState,
    loadEditorState, super_setInput, super_clearInput,
    super_setEditorVisible, super_onWillHide, super_saveState,
    widget_value.

Ltac solve_preserves := unfold_methods; repeat preserves_step.

(** A property of the pane that every method and every segment of
    [setInput] preserves, and that a change of the borrowed widget
    preserves, holds along every schedule of the host. *)
Record kept_by_methods (P : NotebookEditor -> Prop) : Prop :=
  { kept_setInput_begin : forall input options token,
      preserves P (setInput_begin input options token);
    kept_setInput_borrow : forall group input options token b,
      preserves P (setInput_borrow group input options token b);
    kept_setInput_resolved : forall input options token r,
      preserves P (setInput_resolved input options token r);
    kept_setInput_finish : forall input options token,
      preserves P (setInput_finish input options token);
    kept_clearInput : preserves P clearInput;
    kept_onWillHide : preserves P onWillHide;
    kept_setEditorVisible : forall visible group,
      preserves P (setEditorVisible visible group);
    kept_onWillCloseEditorInGroup : forall e,
      preserves P (onWillCloseEditorInGroup e);
    kept_layout : forall d, preserves P (layout d);
    kept_saveState : preserves P saveState;
    kept_widget_change : forall b s, P s -> P (set_widget b s) }.

Lemma step_keeps P op h :
  kept_by_methods P -> P (pane h) -> P (pane (step op h)).
Proof.
  intros [] Hh.
  destruct op as [input options token| | |visible group|e|d| |k a|token|b];
    cbn [step]; rewrite ?pane_settle; try done.
  - by apply preserves_fmap.
  - apply preserves_bind; [done|intros; by apply preserves_ret|done].
  - apply preserves_bind; [done|intros; by apply preserves_ret|done].
  - apply preserves_bind; [done|intros; by apply preserves_ret|done].
  - apply preserves_bind; [done|intros; by apply preserves_ret|done].
  - apply preserves_bind; [done|intros; by apply preserves_ret|done].
  - apply preserves_bind; [done|intros; by apply preserves_ret|done].
  - destruct (pending h !! k) as [f|]; [|done].
    destruct f, a; simpl; try done; rewrite pane_settle.
    + by apply preserves_fmap.
    + by apply kept_setInput_resolved0.
    + apply preserves_bind; [done|intros; by apply preserves_ret|done].
  - by apply kept_widget_change0.
Qed.

Lemma run_keeps P ops h :
  kept_by_methods P -> P (pane h) -> P (pane (run ops h)).
Proof.
  intros HP. revert h. induction ops as [|op ops IH]; intros h Hh; [done|].
  simpl. apply IH. by apply step_keeps.
Qed.

(** ** The close listener follows the group *)

Lemma listener_kept :
  kept_by_methods (fun s => groupListener s = _group s).
Proof.
  split; try (intros; solve_preserves; fail).
  - intros visible group s _. reflexivity.
  - done.
Qed.

(** In every state the pane can reach from its construction, under any
    schedule of calls, resumptions and changes of the widget, the listener
    for closing editors is registered on the very group the pane is shown
    in (and on none when it is shown in none): only [setEditorVisible]
    touches either, and it sets both. *)
Theorem groupListener_follows_group (ops : list HostOp) (isEditorPart : bool) :
  groupListener (pane (run ops (new_Host isEditorPart))) =
  _group (pane (run ops (new_Host isEditorPart))).
Proof.
  apply (run_keeps (fun s => groupListener s = _group s));
    [apply listener_kept|done].
Qed.

(** ** What may write the store, and where *)

Lemma exec_then_none {A} (m : M A) s :
  ((m ≫= fun _ => mret (@None Frame)) s).2 = exec m s.
Proof. unfold exec, mbind, M_bind. by destruct (m s) as [[a|err] s1]. Qed.

Lemma exec_fmap {A B} (g : A -> B) (m : M A) s :
  ((g <$> m) s).2 = exec m s.
Proof. unfold exec, fmap, M_fmap. by destruct (m s) as [[a|err] s1]. Qed.

(** The steps of the host that go through the save helper. *)
Definition is_save_path (op : HostOp) : bool :=
  match op with
  | CallSetInput _ _ _ | CallOnWillHide | CallCloseEditor _
  | CallSaveState => true
  | _ => false
  end.

Lemma memento_kept_by_segments m0 :
  (forall group input options token b,
     preserves (fun s => editorMemento s = m0)
       (setInput_borrow group input options token b)) /\
  (forall input options token r,
     preserves (fun s => editorMemento s = m0)
       (setInput_resolved input options token r)) /\
  (forall input options token,
     preserves (fun s => editorMemento s = m0)
       (setInput_finish input options token)) /\
  preserves (fun s => editorMemento s = m0) clearInput /\
  (forall visible group,
     preserves (fun s => editorMemento s = m0)
       (setEditorVisible visible group)) /\
  (forall d, preserves (fun s => editorMemento s = m0) (layout d)).
Proof. repeat split; intros; solve_preserves. Qed.

(** The store changes only in the four steps that go through the save
    helper: the call of [setInput] (its first segment), [onWillHide],
    [onWillCloseEditorInGroup] and [saveState].  No resumed segment of
    [setInput], no [clearInput], [setEditorVisible] or [layout], no signal
    of a token and no change of the widget writes it. *)
Theorem only_save_paths_write (op : HostOp) (h : Host) :
  is_save_path op = false ->
  editorMemento (pane (step op h)) = editorMemento (pane h).
Proof.
  intros Hop.
  destruct (memento_kept_by_segments (editorMemento (pane h)))
    as (Hb & Hr & Hf & Hc & Hv & Hl).
  destruct op as [input options token| | |visible group|e|d| |k a|token|b];
    try discriminate; cbn [step]; rewrite ?pane_settle, ?exec_then_none;
    try (first [by apply Hc | by apply Hv | by apply Hl]); try done.
  destruct (pending h !! k) as [f|]; [|done].
  destruct f, a; simpl; try done;
    rewrite pane_settle, ?exec_then_none, ?exec_fmap;
    first [by apply Hb | by apply Hr | by apply Hf].
Qed.

Lemma only_save_paths_write_witness :
  editorMemento (pane (step (CallLayout Sample.size) Reopen.saved_A)) =
  editorMemento (pane Reopen.saved_A).
Proof.
  apply (only_save_paths_write (CallLayout Sample.size) Reopen.saved_A).
  reflexivity.
Defined.

Lemma saved_writes_current input s key :
  editorMemento (saved input s) !! key <> editorMemento s !! key ->
  exists g w,
    _group s = Some g /\ value (_widget s) = Some w /\
    key = (group_id g, resource input) /\
    editorMemento (saved input s) !! key = Some (getEditorViewState w).
Proof.
  rewrite saved_memento.
  destruct (_group s) as [g|], (value (_widget s)) as [w|]; try done.
  intros Hne. exists g, w.
  destruct (decide ((group_id g, resource input) = key)) as [<-|Hk].
  - by rewrite lookup_insert_eq.
  - by rewrite lookup_insert_ne in Hne.
Qed.

Lemma onWillHide_memento s :
  editorMemento (exec onWillHide s) =
  match instanceof_NotebookEditorInput (_input s) with
  | Some input => editorMemento (saved input s)
  | None => editorMemento s
  end.
Proof.
  rewrite onWillHide_saved. cbv zeta.
  destruct (instanceof_NotebookEditorInput (_input s));
    by destruct (_input s), (value (_widget s)).
Qed.

Lemma instanceof_Some x n :
  instanceof_NotebookEditorInput x = Some n -> x = Some (NotebookInput n).
Proof. destruct x as [[n'|]|]; simpl; congruence. Qed.

(** Whatever step the host takes, the only entry of the store that can
    change is the one for the group the pane is in and the resource of the
    input it currently shows, and what is written there is the view state
    the borrowed widget reports: the controller never overwrites the view
    state of another document or of another group. *)
Theorem writes_only_current_entry (op : HostOp) (h : Host) (key : Z * string) :
  editorMemento (pane (step op h)) !! key <> editorMemento (pane h) !! key ->
  exists g input w,
    _group (pane h) = Some g /\
    _input (pane h) = Some (NotebookInput input) /\
    value (_widget (pane h)) = Some w /\
    key = (group_id g, resource input) /\
    editorMemento (pane (step op h)) !! key = Some (getEditorViewState w).
Proof.
  destruct (is_save_path op) eqn:Hop;
    [|intros Hne; by rewrite only_save_paths_write in Hne].
  assert (Hcur : forall input m,
            _input (pane h) = Some (NotebookInput input) ->
            m = editorMemento (saved input (pane h)) ->
            m !! key <> editorMemento (pane h) !! key ->
            exists g input w,
              _group (pane h) = Some g /\
              _input (pane h) = Some (NotebookInput input) /\
              value (_widget (pane h)) = Some w /\
              key = (group_id g, resource input) /\
              m !! key = Some (getEditorViewState w)).
  { intros input m Hin -> Hne.
    destruct (saved_writes_current input (pane h) key Hne)
      as (g & w & ? & ? & ? & ?).
    by exists g, input, w. }
  destruct op as [input options token| | |visible group|e|d| |k a|token|b];
    try discriminate; cbn [step]; rewrite pane_settle, ?exec_then_none,
    ?exec_fmap.
  - unfold exec. rewrite setInput_begin_saved. cbn [snd].
    destruct (instanceof_NotebookEditorInput (_input (pane h))) as [n|] eqn:Hin;
      [|done].
    apply instanceof_Some in Hin. by apply (Hcur n).
  - rewrite onWillHide_memento.
    destruct (instanceof_NotebookEditorInput (_input (pane h))) as [n|] eqn:Hin;
      [|done].
    apply instanceof_Some in Hin. by apply (Hcur n).
  - rewrite onWillCloseEditorInGroup_saved.
    destruct (as_notebook (editor e)) as [ed|]; [|done].
    case_decide as Heq; [|done]. by apply (Hcur ed).
  - rewrite saveState_saved.
    destruct (instanceof_NotebookEditorInput (_input (pane h))) as [n|] eqn:Hin;
      [|done].
    apply instanceof_Some in Hin. by apply (Hcur n).
Qed.

Lemma writes_only_current_entry_witness :
  exists g input w,
    _group (pane Sample.showing_A) = Some g /\
    _input (pane Sample.showing_A) = Some (NotebookInput input) /\
    value (_widget (pane Sample.showing_A)) = Some w /\
    (1, "doc://A") = (group_id g, resource input) /\
    editorMemento (pane (step CallSaveState Sample.showing_A))
      !! (1, "doc://A") = Some (getEditorViewState w).
Proof.
  apply (writes_only_current_entry CallSaveState Sample.showing_A
           (1, "doc://A")).
  vm_compute. discriminate.
Defined.

(** ** An empty borrow *)

Definition is_resolve (c : Call) : bool :=
  match c with InputResolve _ _ => true | _ => false end.

Definition is_layout (c : Call) : bool :=
  match c with WidgetLayout _ _ => true | _ => false end.

Lemma elem_of_forallb (Q : Call -> bool) (l : list Call) (c : Call) :
  forallb Q l = true -> c ∈ l -> Q c = true.
Proof.
  intros Hall Hin. apply list_elem_of_In in Hin.
  by apply (proj1 (forallb_forall Q l) Hall).
Qed.

Lemma setInput_borrow_empty group input options token b s :
  value b = None ->
  let s' := exec (setInput_borrow group input options token b) s in
  completion (setInput_borrow group input options token b) s =
    Throw TypeError /\
  calls s' = calls s ++ hide_calls s ++ [ServiceRetrieveWidget group input] /\
  _widget s' = b /\ _input s' = _input s /\
  _widgetDisposableStore s' = [].
Proof.
  intros Hb. unfold setInput_borrow, hide_calls. run_body.
  destruct (value (_widget s)) eqn:Hv, (dimension s) eqn:Hd;
    reduce_with_eqs; rewrite <- ?app_assoc; done.
Qed.

(** When the widget service answers [setInput] with an empty borrow, the
    call is rejected with a [TypeError] and leaves nothing suspended.  By
    then the previously borrowed widget has been told that it will be
    hidden and its subscriptions are dropped, the pane holds the empty
    borrow, and [input.resolve] is never called. *)
Theorem setInput_with_empty_borrow_rejects (h : Host) (k : nat)
    (group : option IEditorGroup) (input : NotebookEditorInput)
    (options : option EditorOptions) (token : CancellationToken)
    (b : IBorrowValue NotebookEditorWidget) :
  pending h !! k = Some (AwaitSuperSetInput group input options token) ->
  value b = None ->
  let h' := step (Resume k (Borrowed b)) h in
  rejected h' = rejected h ++ [TypeError] /\
  pending h' = delete k (pending h) /\
  calls (pane h') =
    calls (pane h) ++ hide_calls (pane h) ++
    [ServiceRetrieveWidget group input] /\
  (forall i id, InputResolve i id ∉ drop (length (calls (pane h)))
                                      (calls (pane h'))) /\
  _widget (pane h') = b /\
  _widgetDisposableStore (pane h') = [].
Proof.
  intros Hk Hb. cbv zeta. cbn [step]. rewrite Hk. cbn [resume_frame].
  destruct (setInput_borrow_empty group input options token b (pane h) Hb)
    as (Hc & Hcalls & Hw & _ & Hd).
  unfold exec, completion, fmap, M_fmap in *.
  destruct (setInput_borrow group input options token b (pane h))
    as [c s'] eqn:Hrun. simpl in *. subst c. simpl.
  repeat split; try done.
  intros i id Hin. rewrite Hcalls, drop_length_app in Hin.
  apply (elem_of_forallb (fun c => negb (is_resolve c))) in Hin; [done|].
  unfold hide_calls. by destruct (value (_widget (pane h))).
Qed.

Lemma setInput_with_empty_borrow_rejects_witness :
  rejected (step (Resume 0 (Borrowed {| value := None |}))
              (step (CallSetInput Sample.B None Sample.tokenB)
                 Sample.showing_A)) = [TypeError].
Proof.
  refine (proj1
    (setInput_with_empty_borrow_rejects
       (step (CallSetInput Sample.B None Sample.tokenB) Sample.showing_A)
       0 (Some Sample.G) Sample.B None Sample.tokenB {| value := None |}
       _ _)); reflexivity.
Defined.

(** ** The cached size and the new widget *)

Lemma layout_dimension d s :
  dimension (exec (layout d) s) = Some d /\
  _widget (exec (layout d) s) = _widget s /\
  _input (exec (layout d) s) = _input s /\
  _group (exec (layout d) s) = _group s.
Proof.
  unfold layout. run_body.
  destruct (value (_widget s)) as [w|]; [|done].
  destruct (instanceof_NotebookEditorInput (_input s)); [|done].
  destruct (viewModel w); [case_decide|]; done.
Qed.

(** The size of the last [layout] reaches a widget borrowed afterwards:
    a [setInput] that follows a [layout d] calls the new widget's [layout]
    with [d], after the widget has been retrieved and before document
    resolution is requested, even when that [layout] itself passed
    nothing on.  A pane that was never laid out calls no widget's [layout]
    in [setInput]. *)
Theorem cached_size_reaches_new_widget (s : NotebookEditor) (d : Dimension)
    (input : NotebookEditorInput) (options : option EditorOptions)
    (token : CancellationToken) (b : IBorrowValue NotebookEditorWidget)
    (w : NotebookEditorWidget) :
  value b = Some w ->
  (exists before,
     new_calls (setInput_upto_resolve input options token b)
       (exec (layout d) s) =
     before ++ [ ServiceRetrieveWidget (_group s) input;
                 WidgetLayout (getId w) d;
                 InputResolve input (getId w) ]) /\
  (dimension s = None ->
   forall id d', WidgetLayout id d' ∉
     new_calls (setInput_upto_resolve input options token b) s).
Proof.
  intros Hb. split.
  - destruct (layout_dimension d s) as (Hd & _ & _ & Hg).
    destruct (setInput_upto_resolve_widget input options token b w
                (exec (layout d) s) Hb) as (_ & Hc & _).
    exists (save_calls (exec (layout d) s) ++ hide_calls (exec (layout d) s)).
    apply new_calls_app. rewrite Hc. unfold layout_calls.
    rewrite Hd, Hg. by rewrite <- !app_assoc.
  - intros Hd id d' Hin.
    destruct (setInput_upto_resolve_widget input options token b w s Hb)
      as (_ & Hc & _).
    rewrite (new_calls_app _ _ _ Hc) in Hin.
    apply (elem_of_forallb (fun c => negb (is_layout c))) in Hin; [done|].
    unfold save_calls, hide_calls, layout_calls. rewrite Hd.
    by destruct (instanceof_NotebookEditorInput (_input s)), (_group s),
      (value (_widget s)).
Qed.

Lemma cached_size_reaches_new_widget_witness :
  exists before,
    new_calls (setInput_upto_resolve Sample.B None Sample.tokenB
                 {| value := Some Sample.wB |})
      (exec (layout Sample.size) (pane Sample.showing_A)) =
    before ++ [ ServiceRetrieveWidget (_group (pane Sample.showing_A)) Sample.B;
                WidgetLayout "widget-B" Sample.size;
                InputResolve Sample.B "widget-B" ].
Proof.
  refine (proj1
    (cached_size_reaches_new_widget (pane Sample.showing_A) Sample.size
       Sample.B None Sample.tokenB {| value := Some Sample.wB |}
       Sample.wB _)); reflexivity.
Defined.

(** ** Subscriptions of the borrowed widget *)

Lemma setInput_finish_widget input options token w s :
  value (_widget s) = Some w ->
  let s' := exec (setInput_finish input options token) s in
  completion (setInput_finish input options token) s = Normal tt /\
  _widgetDisposableStore s' =
    _widgetDisposableStore s ++
    FocusForward (getId w) ::
    (if editorGroupService_isEditorPart s then [DropTarget (getId w)] else []) /\
  calls s' =
    calls s ++
    WidgetOnDidFocus (getId w) ::
    (if editorGroupService_isEditorPart s
     then [WidgetGetDomNode (getId w); CreateEditorDropTarget (getId w)]
     else []).
Proof.
  intros Hw. unfold setInput_finish. run_body. rewrite Hw. simpl.
  destruct (editorGroupService_isEditorPart s); simpl; rewrite ?Hw; simpl;
    rewrite <- ?app_assoc; done.
Qed.

Lemma isEditorPart_kept v :
  (forall input options token b,
     preserves (fun s => editorGroupService_isEditorPart s = v)
       (setInput_upto_resolve input options token b)) /\
  (forall input options token r,
     preserves (fun s => editorGroupService_isEditorPart s = v)
       (setInput_resolved input options token r)).
Proof. split; intros; solve_preserves. Qed.

Lemma disposables_kept_by_resolved l input options token r :
  preserves (fun s => _widgetDisposableStore s = l)
    (setInput_resolved input options token r).
Proof. solve_preserves. Qed.

(** The steps of the host that touch [_widgetDisposableStore]: resuming a
    [setInput] at its first [await] (it borrows) and at its last (it
    finishes). *)
Definition touches_subscriptions (op : HostOp) (h : Host) : bool :=
  match op with
  | Resume k a =>
      match pending h !! k, a with
      | Some (AwaitSuperSetInput _ _ _ _), Borrowed _ => true
      | Some (AwaitSetModel _ _ _), ModelSet => true
      | _, _ => false
      end
  | _ => false
  end.

Lemma disposables_kept l :
  (forall input options token,
     preserves (fun s => _widgetDisposableStore s = l)
       (setInput_begin input options token)) /\
  preserves (fun s => _widgetDisposableStore s = l) clearInput /\
  preserves (fun s => _widgetDisposableStore s = l) onWillHide /\
  (forall visible group,
     preserves (fun s => _widgetDisposableStore s = l)
       (setEditorVisible visible group)) /\
  (forall e,
     preserves (fun s => _widgetDisposableStore s = l)
       (onWillCloseEditorInGroup e)) /\
  (forall d, preserves (fun s => _widgetDisposableStore s = l) (layout d)) /\
  preserves (fun s => _widgetDisposableStore s = l) saveState.
Proof. repeat split; intros; solve_preserves. Qed.

Module Overlap.
(** [setInput(B)] is called while [setInput(A)] awaits resolution; then
    both calls run to their end, [A]'s first. *)
Definition both_finished : Host :=
  run [ Resume 0 (Resolved (Some Sample.modelA));
        Resume 1 ModelSet;
        Resume 0 (Resolved (Some Sample.modelB));
        Resume 0 ModelSet ]
    Superseded.B_over_A.
End Overlap.

(** Under overlapping calls the subscriptions pile up: both continuations
    subscribe to the one widget borrowed when they finish. *)
Example overlapping_calls_subscribe_twice :
  pending Overlap.both_finished = [] /\
  _widgetDisposableStore (pane Overlap.both_finished) =
    [FocusForward "widget-B"; FocusForward "widget-B"].
Proof. vm_compute. done. Qed.

(** [_widgetDisposableStore] under every schedule.  A [setInput] empties
    it when it resumes from its first [await] to borrow, whatever the
    borrow holds; a [setInput] that resumes after [setModel] adds to it the
    subscriptions of the widget borrowed at that moment, the forwarding of
    its focus event and, only when the editor group service is an
    [EditorPart], its drop target; and no other step of the host changes
    it.  Hence a [setInput] whose segments run one after the other, with a
    widget in the borrow and a model from resolution, leaves exactly the
    subscriptions of the newly borrowed widget, whatever was held for the
    previous one. *)
Theorem setInput_subscribes_afresh (h : Host) :
  (forall k group input options token b,
     pending h !! k = Some (AwaitSuperSetInput group input options token) ->
     _widgetDisposableStore (pane (step (Resume k (Borrowed b)) h)) = []) /\
  (forall k input options token w,
     pending h !! k = Some (AwaitSetModel input options token) ->
     value (_widget (pane h)) = Some w ->
     _widgetDisposableStore (pane (step (Resume k ModelSet) h)) =
       _widgetDisposableStore (pane h) ++
       FocusForward (getId w) ::
       (if editorGroupService_isEditorPart (pane h)
        then [DropTarget (getId w)] else [])) /\
  (forall op,
     touches_subscriptions op h = false ->
     _widgetDisposableStore (pane (step op h)) =
       _widgetDisposableStore (pane h)) /\
  (forall input options token b w model,
     value b = Some w ->
     let s1 := exec (setInput_upto_resolve input options token b) (pane h) in
     let s2 := exec (setInput_resolved input options token (Some model)) s1 in
     let s3 := exec (setInput_finish input options token) s2 in
     completion (setInput_finish input options token) s2 = Normal tt /\
     _widgetDisposableStore s3 =
       FocusForward (getId w) ::
       (if editorGroupService_isEditorPart (pane h)
        then [DropTarget (getId w)] else [])).
Proof.
  split; [|split; [|split]].
  - intros k group input options token b Hk. cbn [step]. rewrite Hk.
    cbn [resume_frame]. rewrite pane_settle, exec_fmap.
    destruct (value b) as [w|] eqn:Hb.
    + by destruct (setInput_borrow_widget group input options token b w
                     (pane h) Hb) as (_ & _ & _ & _ & _ & _ & _ & ?).
    + by destruct (setInput_borrow_empty group input options token b
                     (pane h) Hb) as (_ & _ & _ & _ & ?).
  - intros k input options token w Hk Hw. cbn [step]. rewrite Hk.
    cbn [resume_frame]. rewrite pane_settle, exec_then_none.
    by destruct (setInput_finish_widget input options token w (pane h) Hw)
      as (_ & ? & _).
  - intros op Hop.
    destruct (disposables_kept (_widgetDisposableStore (pane h)))
      as (Hbegin & Hclear & Hhide & Hvis & Hclose & Hlayout & Hsave).
    destruct op as [input options token| | |visible group|e|d| |k a|token|b];
      cbn [step]; rewrite ?pane_settle, ?exec_then_none, ?exec_fmap;
      try (first [ by apply Hbegin | by apply Hclear | by apply Hhide
                 | by apply Hvis | by apply Hclose | by apply Hlayout
                 | by apply Hsave ]); try done.
    simpl in Hop. destruct (pending h !! k) as [f|]; [|done].
    destruct f, a; try discriminate; simpl; try done.
    rewrite pane_settle. by apply disposables_kept_by_resolved.
  - intros input options token b w model Hb s1 s2 s3.
    destruct (isEditorPart_kept (editorGroupService_isEditorPart (pane h)))
      as (Hp1 & Hp2).
    assert (Hd1 : _widgetDisposableStore s1 = [] /\ _widget s1 = b).
    { subst s1. unfold exec. rewrite setInput_upto_resolve_borrow.
      by destruct (setInput_borrow_widget (_group (pane h)) input options
                     token b w (begun input (pane h)) Hb)
        as (_ & _ & _ & _ & ? & _ & _ & ?). }
    destruct Hd1 as (Hd1 & Hw1).
    assert (Hw2 : value (_widget s2) = Some w).
    { subst s2.
      destruct (setInput_resolved_effect input options token (Some model) s1)
        as (_ & _ & _ & -> & _). by rewrite Hw1. }
    assert (Hd2 : _widgetDisposableStore s2 = [])
      by (by apply disposables_kept_by_resolved).
    assert (He2 : editorGroupService_isEditorPart s2 =
                  editorGroupService_isEditorPart (pane h))
      by (apply Hp2; by apply Hp1).
    destruct (setInput_finish_widget input options token w s2 Hw2)
      as (Hc & Hd & _).
    split; [done|]. subst s3. by rewrite Hd, Hd2, He2.
Qed.

(** ** Assigning the resource that is already shown *)

Lemma reassign_same_resource s A g w B options token b w2 model :
  _input s = Some (NotebookInput A) ->
  _group s = Some g ->
  value (_widget s) = Some w ->
  resource B = resource A ->
  value b = Some w2 ->
  new_calls (setInput_resolved B options token (Some model))
    (exec (setInput_upto_resolve B options token b) s) =
  [ MementoLoad (group_id g) (resource B);
    WidgetSetModel (getId w2) (notebook model)
      (Some (getEditorViewState w)) options ].
Proof.
  intros Hi Hg Hw Hres Hb.
  destruct (setInput_upto_resolve_widget B options token b w2 s Hb)
    as (_ & _ & _ & Hg1 & Hw1 & Hm1).
  rewrite Hi in Hm1. simpl in Hm1. rewrite saved_memento, Hg, Hw in Hm1.
  set (s1 := exec (setInput_upto_resolve B options token b) s) in *.
  assert (Hw1' : value (_widget s1) = Some w2) by (by rewrite Hw1).
  destruct (setInput_resolved_model B options token model w2 s1 Hw1')
    as (_ & Hc & _).
  apply new_calls_app. rewrite Hc. unfold load_calls, stored.
  rewrite Hg1, Hg, Hm1, Hres. by rewrite lookup_insert_eq.
Qed.

(** When [setInput] is given an input for the resource the pane already
    shows (in a group, with a borrowed widget) and runs on to a resolved
    model, the view state it hands to [setModel] is the one the previously
    borrowed widget reported when the call began, whatever the store held
    for that resource before: the save at the start of [setInput]
    overwrites the entry that the later load reads. *)
Theorem setInput_same_resource_restores_current_state (s : NotebookEditor)
    (A : NotebookEditorInput) (g : IEditorGroup) (w : NotebookEditorWidget)
    (B : NotebookEditorInput) (options : option EditorOptions)
    (token : CancellationToken) (b : IBorrowValue NotebookEditorWidget)
    (w2 : NotebookEditorWidget) (model : NotebookEditorModel) :
  _input s = Some (NotebookInput A) ->
  _group s = Some g ->
  value (_widget s) = Some w ->
  resource B = resource A ->
  value b = Some w2 ->
  new_calls (setInput_resolved B options token (Some model))
    (exec (setInput_upto_resolve B options token b) s) =
  [ MementoLoad (group_id g) (resource B);
    WidgetSetModel (getId w2) (notebook model)
      (Some (getEditorViewState w)) options ].
Proof. apply reassign_same_resource. Qed.

Lemma setInput_same_resource_restores_current_state_witness :
  new_calls (setInput_resolved Sample.A None Sample.tokenA
               (Some Sample.modelA))
    (exec (setInput_upto_resolve Sample.A None Sample.tokenA
             {| value := Some Sample.wA |}) (pane Sample.showing_A)) =
  [ MementoLoad 1 "doc://A";
    WidgetSetModel "widget-A" (notebook Sample.modelA)
      (Some {| state_blob := "scroll=120" |}) None ].
Proof.
  apply (setInput_same_resource_restores_current_state
           (pane Sample.showing_A) Sample.A Sample.G Sample.wA_shown
           Sample.A None Sample.tokenA {| value := Some Sample.wA |}
           Sample.wA Sample.modelA); reflexivity.
Defined.

(** Hiding the pane and then assigning the same input again restores the
    view state saved at the time of hiding: [onWillHide] stores the
    widget's view state and keeps input, group and borrow, and as long as
    the widget reports the same state when [setInput] begins, that is the
    view state handed to [setModel]. *)
Theorem hide_then_reassign_restores_saved_state (s : NotebookEditor)
    (A : NotebookEditorInput) (g : IEditorGroup) (w : NotebookEditorWidget)
    (options : option EditorOptions) (token : CancellationToken)
    (b : IBorrowValue NotebookEditorWidget) (w2 : NotebookEditorWidget)
    (model : NotebookEditorModel) :
  _input s = Some (NotebookInput A) ->
  _group s = Some g ->
  value (_widget s) = Some w ->
  value b = Some w2 ->
  let hidden := exec onWillHide s in
  exists S,
    editorMemento hidden !! (group_id g, resource A) = Some S /\
    new_calls (setInput_resolved A options token (Some model))
      (exec (setInput_upto_resolve A options token b) hidden) =
    [ MementoLoad (group_id g) (resource A);
      WidgetSetModel (getId w2) (notebook model) (Some S) options ].
Proof.
  intros Hi Hg Hw Hb hidden. exists (getEditorViewState w).
  assert (Hh : hidden = log_call (WidgetOnWillHide (getId w)) (saved A s))
    by (subst hidden; by rewrite onWillHide_saved, Hi, Hw).
  destruct (saved_fields A s) as (Si & Sg & Sw & _).
  split.
  - rewrite Hh. simpl. rewrite saved_memento, Hg, Hw.
    apply lookup_insert_eq.
  - apply (reassign_same_resource hidden A g w); try done; rewrite Hh; simpl;
      congruence.
Qed.

Lemma hide_then_reassign_restores_saved_state_witness :
  exists S,
    editorMemento (exec onWillHide (pane Sample.showing_A))
      !! (group_id Sample.G, resource Sample.A) = Some S /\
    new_calls (setInput_resolved Sample.A None Sample.tokenA
                 (Some Sample.modelA))
      (exec (setInput_upto_resolve Sample.A None Sample.tokenA
               {| value := Some Sample.wA |})
         (exec onWillHide (pane Sample.showing_A))) =
    [ MementoLoad (group_id Sample.G) (resource Sample.A);
      WidgetSetModel (getId Sample.wA) (notebook Sample.modelA) (Some S)
        None ].
Proof.
  apply (hide_then_reassign_restores_saved_state (pane Sample.showing_A)
           Sample.A Sample.G Sample.wA_shown None Sample.tokenA
           {| value := Some Sample.wA |} Sample.wA Sample.modelA);
    reflexivity.
Defined.

(** ** The save paths agree *)

(** Whichever path the host takes to have the view state saved,
    [saveState], [onWillHide], the closing of the current input, or the
    start of a [setInput], the store ends up the same: each saves for the
    current input, under the same key, the state the widget reports. *)
Theorem save_paths_agree (s : NotebookEditor) (input : NotebookEditorInput) :
  _input s = Some (NotebookInput input) ->
  editorMemento (exec onWillHide s) = editorMemento (exec saveState s) /\
  editorMemento (exec (onWillCloseEditorInGroup
                         {| editor := NotebookInput input |}) s) =
    editorMemento (exec saveState s) /\
  (forall B options token,
     editorMemento (exec (setInput_begin B options token) s) =
     editorMemento (exec saveState s)).
Proof.
  intros Hi. rewrite saveState_saved, onWillHide_memento,
    onWillCloseEditorInGroup_saved, Hi. simpl.
  rewrite decide_True by done. repeat split.
  intros B options token. unfold exec. rewrite setInput_begin_saved.
  by rewrite Hi.
Qed.

Lemma save_paths_agree_witness :
  editorMemento (exec onWillHide (pane Sample.showing_A)) =
  editorMemento (exec saveState (pane Sample.showing_A)).
Proof.
  refine (proj1 (save_paths_agree (pane Sample.showing_A) Sample.A _)).
  reflexivity.
Defined.

(** ** After [clearInput] *)

Lemma clearInput_input s : _input (exec clearInput s) = None.
Proof.
  unfold clearInput, super_clearInput. run_body.
  by destruct (value (_widget s)).
Qed.

(** Once [clearInput] has run, nothing saves the view state until an input
    is assigned again: [saveState], [onWillHide] and the closing of any
    editor leave the whole object as it is, and the next [setInput] makes
    no call in its first segment.  So the view state at the time of
    [clearInput] is kept only if a save path ran before it. *)
Theorem after_clearInput_nothing_is_saved (s : NotebookEditor) :
  let cleared := exec clearInput s in
  exec saveState cleared = cleared /\
  exec onWillHide cleared = cleared /\
  (forall e, exec (onWillCloseEditorInGroup e) cleared = cleared) /\
  (forall input options token,
     new_calls (setInput_begin input options token) cleared = []).
Proof.
  cbv zeta. pose proof (clearInput_input s) as Hi.
  set (cleared := exec clearInput s) in *.
  repeat split.
  - by rewrite saveState_saved, Hi.
  - by rewrite onWillHide_saved, Hi.
  - intros e. rewrite onWillCloseEditorInGroup_saved, Hi.
    destruct (as_notebook (editor e)); [|done]. by case_decide.
  - intros input options token. apply new_calls_same.
    unfold exec. rewrite setInput_begin_saved. by rewrite Hi.
Qed.

(** ** View state belongs to a group *)

Lemma setEditorVisible_effect visible group s :
  _group (exec (setEditorVisible visible group) s) = group /\
  editorMemento (exec (setEditorVisible visible group) s) = editorMemento s.
Proof. done. Qed.

(** View state saved while the pane is in one group is not what a pane
    finds after it has been moved to a group with another id: what
    [loadTextEditorViewState] then yields for the same resource is
    whatever the store held for the new group before the save, and
    nothing if it held nothing. *)
Theorem view_state_is_per_group (s : NotebookEditor) (g g' : IEditorGroup)
    (w : NotebookEditorWidget) (input : NotebookEditorInput)
    (visible : bool) :
  _group s = Some g ->
  value (_widget s) = Some w ->
  group_id g' <> group_id g ->
  let s1 := exec (saveEditorViewState input) s in
  let s2 := exec (setEditorVisible visible (Some g')) s1 in
  completion (loadTextEditorViewState input) s1 =
    Normal (Some (getEditorViewState w)) /\
  completion (loadTextEditorViewState input) s2 =
    Normal (editorMemento s !! (group_id g', resource input)).
Proof.
  intros Hg Hw Hne s1 s2.
  assert (Hs1 : s1 = saved input s)
    by (subst s1; unfold exec; by rewrite saveEditorViewState_saved).
  destruct (saved_fields input s) as (_ & Sg & _).
  assert (Hm1 : editorMemento s1 =
                <[(group_id g, resource input) := getEditorViewState w]>
                  (editorMemento s))
    by (by rewrite Hs1, saved_memento, Hg, Hw).
  split.
  - destruct (loadTextEditorViewState_stored input s1) as (-> & _).
    unfold stored. rewrite Hs1, Sg, Hg, <- Hs1, Hm1.
    by rewrite lookup_insert_eq.
  - destruct (loadTextEditorViewState_stored input s2) as (-> & _).
    destruct (setEditorVisible_effect visible (Some g') s1) as (Hg2 & Hm2).
    unfold stored. subst s2. rewrite Hg2, Hm2, Hm1.
    rewrite lookup_insert_ne; [done|]. intros [= Heq]. by apply Hne.
Qed.

Lemma view_state_is_per_group_witness :
  completion (loadTextEditorViewState Sample.A)
    (exec (setEditorVisible true (Some {| group_id := 2 |}))
       (exec (saveEditorViewState Sample.A) (pane Sample.showing_A))) =
  Normal (editorMemento (pane Sample.showing_A) !! (2, "doc://A")).
Proof.
  refine (proj2
    (view_state_is_per_group (pane Sample.showing_A) Sample.G
       {| group_id := 2 |} Sample.wA_shown Sample.A true _ _ _)).
  - reflexivity.
  - reflexivity.
  - simpl. lia.
Defined.
